(** * CHDManUI: a shallow embedding of [src/CHDManUI.py]

    The program is a Tk front-end around the external [chdman] tool.  The
    embedding keeps the pure parts as functions (sub-command choice, the
    regular-expression scan, the rolling buffer, the clamping of the
    progress value) and writes the effects out as an explicit trace of
    events (dialogs, process launches, callbacks, log writes).

    Conventions.
    - A Python [str] is a [list ascii]; a character is read as the code
      point of the same number (0..255).  Code points above 255 are outside
      the model.
    - A Python [float] is a primitive binary64 [float].
    - A function that may raise returns an [outcome]. *)

From Stdlib Require Import Ascii String.
From Stdlib Require Import List Bool Arith ZArith Lia Sorted.
From Stdlib Require Import Floats DecimalString DecimalNat.
Import ListNotations.

(* ================================================================== *)
(** * Part I.  The model                                                *)
(* ================================================================== *)

(** ** Python strings *)

Module Py.

Definition str := list ascii.

(** A string literal of the source. *)
Definition lit (s : string) : str := list_ascii_of_string s.
Arguments lit s%_string.

Definition code (c : ascii) : nat := nat_of_ascii c.

(** [c.lower()] on the code points 0..255: the ASCII capitals and the
    Latin-1 capitals U+00C0..U+00DE (the multiplication sign U+00D7 is
    not a letter). *)
Definition lower_char (c : ascii) : ascii :=
  let n := code c in
  if ((65 <=? n) && (n <=? 90))
     || ((192 <=? n) && (n <=? 222) && negb (n =? 215))
  then ascii_of_nat (n + 32) else c.

(** [s.lower()] *)
Definition lower (s : str) : str := map lower_char s.

(** [s == t] *)
Fixpoint eqb (s t : str) : bool :=
  match s, t with
  | [], [] => true
  | a :: s', b :: t' => Ascii.eqb a b && eqb s' t'
  | _, _ => false
  end.

(** [s.startswith(p)] *)
Fixpoint startswith (s p : str) {struct p} : bool :=
  match p, s with
  | [], _ => true
  | a :: p', b :: s' => Ascii.eqb a b && startswith s' p'
  | _ :: _, [] => false
  end.

(** [s.endswith(suf)]: the last [len(suf)] characters of [s] are [suf]. *)
Definition endswith (s suf : str) : bool :=
  (length suf <=? length s) && eqb (skipn (length s - length suf) s) suf.

(** [sub in s]: [sub] occurs at some offset of [s]. *)
Fixpoint contains (sub s : str) : bool :=
  startswith s sub ||
  match s with
  | [] => false
  | _ :: s' => contains sub s'
  end.

(** [s[-n:]] for a positive [n] *)
Definition last_n (n : nat) (s : str) : str := skipn (length s - n) s.

(** [s.replace(a, b)] for one-character [a] and [b] *)
Definition replace_char (a b : ascii) (s : str) : str :=
  map (fun c => if Ascii.eqb c a then b else c) s.

End Py.

Abbreviation str := Py.str.
Abbreviation py := Py.lit.

(** ** Sub-command choice (lines 65-69) *)

Definition choose_subcommand (system input_path : str) : str :=
  if Py.contains (py "PlayStation 2") system
     && Py.endswith (Py.lower input_path) (py ".iso")
  then py "createdvd"
  else py "createcd".

(** ** The progress pattern (line 116)

    [re.finditer(r"(\d{1,3}(?:\.\d+)?)\s*%", buffer)].  The pattern is
    matched the way the backtracking engine tries it: three digits before
    two before one; the optional fraction before its absence; the greedy
    runs [\d+] and [\s*] at their longest.  Giving back part of a greedy run
    never helps here: the character handed back is a digit or a blank,
    and what follows in the pattern ([\s*%], resp. [%]) does not accept
    it, so those retries are not written out. *)

Module Re.

(** [\d] on the code points 0..255 *)
Definition is_digit (c : ascii) : bool :=
  let n := Py.code c in (48 <=? n) && (n <=? 57).

(** [\s] on the code points 0..255: TAB LF VT FF CR, FS GS RS US, SPACE,
    NEL (U+0085) and NBSP (U+00A0). *)
Definition is_space (c : ascii) : bool :=
  let n := Py.code c in
  ((9 <=? n) && (n <=? 13)) || ((28 <=? n) && (n <=? 32))
  || (n =? 133) || (n =? 160).

Definition is_percent (c : ascii) : bool := Ascii.eqb c "%"%char.
Definition is_dot (c : ascii) : bool := Ascii.eqb c "."%char.

(** The longest prefix of [s] in the class [p], and what follows it. *)
Fixpoint span (p : ascii -> bool) (s : str) : str * str :=
  match s with
  | c :: s' =>
      if p c then let (a, b) := span p s' in (c :: a, b) else ([], s)
  | [] => ([], [])
  end.

(** [\d{n}]: exactly [n] digits at the head of [s]. *)
Fixpoint digits (n : nat) (s : str) : option (str * str) :=
  match n with
  | O => Some ([], s)
  | S n' =>
      match s with
      | c :: s' =>
          if is_digit c then
            match digits n' s' with
            | Some (a, b) => Some (c :: a, b)
            | None => None
            end
          else None
      | [] => None
      end
  end.

(** [\.\d+]: the text matched and the rest. *)
Definition fraction (s : str) : option (str * str) :=
  match s with
  | c :: r =>
      if is_dot c then
        match span is_digit r with
        | ([], _) => None
        | (ds, r') => Some (c :: ds, r')
        end
      else None
  | [] => None
  end.

(** [\s*%]: the number of characters matched. *)
Definition blanks_percent (s : str) : option nat :=
  let (ws, r) := span is_space s in
  match r with
  | c :: _ => if is_percent c then Some (S (length ws)) else None
  | [] => None
  end.

(** One try of the whole pattern with [\d{1,3}] taking [n] digits:
    group 1 and the length of the match. *)
Definition attempt (n : nat) (s : str) : option (str * nat) :=
  match digits n s with
  | None => None
  | Some (ds, r) =>
      let with_fraction :=
        match fraction r with
        | Some (fr, r') =>
            match blanks_percent r' with
            | Some k => Some (ds ++ fr, n + length fr + k)
            | None => None
            end
        | None => None
        end in
      match with_fraction with
      | Some res => Some res
      | None =>
          match blanks_percent r with
          | Some k => Some (ds, n + k)
          | None => None
          end
      end
  end.

(** The pattern anchored at the head of [s]. *)
Definition match_at (s : str) : option (str * nat) :=
  match attempt 3 s with
  | Some res => Some res
  | None =>
      match attempt 2 s with
      | Some res => Some res
      | None => attempt 1 s
      end
  end.

(** A match object: [m.start()], [m.end()] and [m.group(1)]. *)
Record rmatch := { m_start : nat; m_end : nat; group1 : str }.

(** The scan of [finditer]: [pos] is the offset of the head of [s],
    [skip] the number of characters still covered by the last match.
    Matches are leftmost and do not overlap; a match is never empty, so
    the search resumes at its end. *)
Fixpoint finditer_from (pos skip : nat) (s : str) : list rmatch :=
  match s with
  | [] => []
  | _ :: s' =>
      match skip with
      | S k => finditer_from (S pos) k s'
      | O =>
          match match_at s with
          | Some (g, n) =>
              {| m_start := pos; m_end := pos + n; group1 := g |}
                :: finditer_from (S pos) (n - 1) s'
          | None => finditer_from (S pos) 0 s'
          end
      end
  end.

Definition finditer (s : str) : list rmatch := finditer_from 0 0 s.

End Re.

(** ** Python floats *)

Module PyFloat.

(** The value of a run of decimal digits. *)
Definition digit_value (c : ascii) : Z := Z.of_nat (Py.code c - 48).

Definition digits_value (ds : str) : Z :=
  fold_left (fun acc c => (10 * acc + digit_value c)%Z) ds 0%Z.

Fixpoint pow10 (k : nat) : positive :=
  match k with
  | O => 1%positive
  | S k' => (10 * pow10 k')%positive
  end.

(** [num / 10^k] rounded to the nearest binary64, ties to even: the
    correctly rounded conversion that [float(str)] performs.  The
    quotient is taken on the integers by the division of the binary64
    specification. *)
Definition of_decimal (num : Z) (k : nat) : float :=
  match num with
  | Zpos n =>
      SF2Prim (SFdiv prec emax (S754_finite false n 0)
                               (S754_finite false (pow10 k) 0))
  | _ => zero
  end.

(** [float(s)] for the unsigned point literals [d+], [d+.d*] and [.d+];
    [None] stands for [ValueError].  The other spellings [float] accepts
    (sign, exponent, blanks, underscores, [inf], [nan]) are not modelled:
    the progress pattern never hands them over. *)
Definition of_str (s : str) : option float :=
  let (ip, r) := Re.span Re.is_digit s in
  match r with
  | [] =>
      match ip with
      | [] => None
      | _ => Some (of_decimal (digits_value ip) 0)
      end
  | c :: fr =>
      if Re.is_dot c && forallb Re.is_digit fr
         && negb ((length ip =? 0) && (length fr =? 0))
      then Some (of_decimal (digits_value (ip ++ fr)) (length fr))
      else None
  end.

(** [min(a, b)] and [max(a, b)] of the builtins: the first argument is
    kept unless the second compares strictly beyond it. *)
Definition min (a b : float) : float := if (b <? a)%float then b else a.
Definition max (a b : float) : float := if (a <? b)%float then b else a.

(** [lo <= x <= hi] *)
Definition between (lo x hi : float) : bool :=
  ((lo <=? x) && (x <=? hi))%float.

(** The integer nearest to [m * 2^e], ties to even, for [0 <= m]. *)
Definition round_half_even (m e : Z) : Z :=
  if (0 <=? e)%Z then (m * 2 ^ e)%Z
  else
    let d := (2 ^ (- e))%Z in
    let q := (m / d)%Z in
    match (2 * (m mod d) ?= d)%Z with
    | Lt => q
    | Gt => (q + 1)%Z
    | Eq => if Z.even q then q else (q + 1)%Z
    end.

(** The integer nearest to [scale * |x|], ties to even, with the sign
    of [x]; [None] for an infinity or a NaN. *)
Definition nearest (scale : positive) (x : float) : option (bool * Z) :=
  match Prim2SF x with
  | S754_zero sg => Some (sg, 0%Z)
  | S754_finite sg m e => Some (sg, round_half_even (Zpos (scale * m)) e)
  | S754_infinity _ | S754_nan => None
  end.

(** [round(x)] with one argument: an [int]; [None] stands for the
    [OverflowError] or [ValueError] of an infinity or a NaN. *)
Definition round (x : float) : option Z :=
  match nearest 1 x with
  | Some (sg, n) => Some (if sg then (- n)%Z else n)
  | None => None
  end.

(** [str(n)] of a non-negative [int] *)
Definition str_of_Z (n : Z) : str :=
  Py.lit (NilZero.string_of_uint (N.to_uint (Z.to_N n))).

(** [f"{x:.1f}"]: [x] to one decimal, from the tenths nearest to it. *)
Definition format_1f (x : float) : str :=
  match nearest 10 x with
  | Some (sg, t) =>
      (if sg then Py.lit "-" else []) ++
      str_of_Z (t / 10) ++ Py.lit "." ++ str_of_Z (t mod 10)
  | None =>
      match Prim2SF x with
      | S754_infinity true => Py.lit "-inf"
      | S754_infinity false => Py.lit "inf"
      | _ => Py.lit "nan"
      end
  end.

End PyFloat.

(** ** Effects

    Exceptions are instances of [Exception] (what [except Exception]
    catches); [KeyboardInterrupt] and [SystemExit] are not modelled. *)

Variant exn := OSError | UnicodeDecodeError | RuntimeError.

Inductive outcome (A : Type) : Type :=
| Return (a : A)
| Raise (e : exn).
Arguments Return {A} a.
Arguments Raise {A} e.

(** What the program does to the outside, in the order it does it. *)
Inductive event :=
| ShowError (title message : str)      (* messagebox.showerror *)
| ShowWarning (title message : str)    (* messagebox.showwarning *)
| ShowInfo (title message : str)       (* messagebox.showinfo *)
| Popen (argv : list str)              (* subprocess.Popen(argv, ...) is called *)
| OutputTail (t : str)                 (* output_tail_var.set(t), posted to the UI thread *)
| LogWrite (chunk : str)               (* logf.write(chunk); logf.flush() *)
| Callback (pct : float)               (* a callback that only records its argument *)
| SetStatus (message : str)            (* update_status(message) *)
| SetProgress (pct : float)            (* set_progress(pct) *)
| SetPercentVar (s : str)              (* percent_var.set(s) *)
| ThreadStart.                         (* threading.Thread(...).start() *)

(** The answers of the operating system to one launch of the tool. *)
Variant read_result :=
| Chunk (s : str)                      (* proc.stdout.read(64) returns s *)
| ReadRaises (e : exn).

Record process := {
  popen_raises : option exn;           (* Popen itself fails *)
  log_opens : bool;                    (* open(log_path, "a") succeeds *)
  reads : list read_result;            (* successive reads; the end of the list is end of file *)
  wait_result : outcome Z              (* proc.wait() and proc.returncode *)
}.

Definition newline : ascii := ascii_of_nat 10.
Definition carriage_return : ascii := ascii_of_nat 13.
Definition space : ascii := ascii_of_nat 32.

(** ** The progress extractor (lines 114-125) *)

(** The body of [for m in re.finditer(...)]: the values handed to the
    callback for the matches [ms], in order. *)
Definition report (ms : list Re.rmatch) : list float :=
  flat_map
    (fun m =>
       match PyFloat.of_str (Re.group1 m) with
       | Some pct => if PyFloat.between 0 pct 100 then [pct] else []
       | None => []                    (* except ValueError: pass *)
       end) ms.

(** [if len(buffer) > 128: buffer = buffer[-16:]] *)
Definition truncate (buffer : str) : str :=
  if 128 <? length buffer then Py.last_n 16 buffer else buffer.

(** The [while True] loop of [run_chdman]: [buffer] is the rolling buffer
    on entry.  A callback is given by the event its call leaves in the
    trace; the callback of the program, [set_progress], catches every
    exception of its own, so a call never raises.  The posts to the UI
    thread and the log writes are guarded by [try] in the source: they
    cannot interrupt the loop either. *)
Fixpoint stream (progress_cb : option (float -> event)) (logf : bool)
         (buffer : str) (rs : list read_result) : list event * outcome unit :=
  match rs with
  | [] => ([], Return tt)
  | ReadRaises e :: _ => ([], Raise e)
  | Chunk [] :: _ => ([], Return tt)   (* if not chunk: break *)
  | Chunk chunk :: rest =>
      let buffer := buffer ++ chunk in
      let tail :=
        Py.replace_char newline space
          (Py.replace_char carriage_return space (Py.last_n 80 buffer)) in
      let calls :=
        match progress_cb with
        | Some cb => map cb (report (Re.finditer buffer))
        | None => []
        end in
      let (tr, r) := stream progress_cb logf (truncate buffer) rest in
      (OutputTail tail :: (if logf then [LogWrite chunk] else []) ++ calls ++ tr, r)
  end.

(** ** [run_chdman] (lines 72-137) *)

(** [if not CHDMAN_PATH]: [None] and the empty string are false. *)
Definition truthy (p : option str) : bool :=
  match p with
  | Some (_ :: _) => true
  | _ => false
  end.

Definition tool_missing_message : str :=
  py "Could not find chdman.exe!" ++ [newline] ++ py "Put it in the same folder or PATH.".

(** The [try] block.  [Popen] is called with [stdout=PIPE], so
    [proc.stdout] is never [None] and the loop is always entered. *)
Definition run_chdman_try (tool : str) (proc : process)
           (input_file output_file : str)
           (progress_cb : option (float -> event)) (subcommand : str)
  : list event * outcome bool :=
  let launch := Popen [tool; subcommand; py "-i"; input_file; py "-o"; output_file] in
  match popen_raises proc with
  | Some e => ([launch], Raise e)
  | None =>
      match stream progress_cb (log_opens proc) [] (reads proc) with
      | (tr, Raise e) => (launch :: tr, Raise e)
      | (tr, Return _) =>
          match wait_result proc with
          | Raise e => (launch :: tr, Raise e)
          | Return returncode =>
              let final :=
                match progress_cb with
                | Some cb => if (returncode =? 0)%Z then [cb 100%float] else []
                | None => []
                end in
              (launch :: tr ++ final, Return (returncode =? 0)%Z)
          end
      end
  end.

Definition run_chdman (CHDMAN_PATH : option str) (proc : process)
           (input_file output_file : str)
           (progress_cb : option (float -> event)) (subcommand : str)
  : list event * outcome bool :=
  match CHDMAN_PATH with
  | Some tool =>
      if truthy CHDMAN_PATH then
        match run_chdman_try tool proc input_file output_file progress_cb subcommand with
        | (tr, Raise _) => (tr, Return false)      (* except Exception: return False *)
        | (tr, Return b) => (tr, Return b)
        end
      else ([ShowError (py "Error") tool_missing_message], Return false)
  | None => ([ShowError (py "Error") tool_missing_message], Return false)
  end.

(** The values the loop hands to a recording callback when the reads
    deliver [chunks] one after the other. *)
Definition callbacks (tr : list event) : list float :=
  flat_map (fun e => match e with Callback p => [p] | _ => [] end) tr.

Definition reported (buffer : str) (chunks : list str) : list float :=
  callbacks (fst (stream (Some Callback) false buffer (map Chunk chunks))).

(** ** The progress display (lines 146-159) *)

(** The widgets the worker reaches through [root.after]. *)
Record ui := {
  status_var : str;
  progress_bar_value : Z;
  percent_var : str;
  output_tail_var : str
}.

Definition ui_init : ui :=
  {| status_var := py "Idle"; progress_bar_value := 0;
     percent_var := []; output_tail_var := [] |}.

(** [clamped = max(0.0, min(100.0, float(pct)))] *)
Definition clamp (pct : float) : float :=
  PyFloat.max 0 (PyFloat.min 100 pct).

(** [set_progress(pct)] followed by the [apply] it posts to the UI thread:
    [progress_bar.config(value=int(round(clamped)))] and
    [percent_var.set(f"{clamped:.1f}%")].  Were [round] to raise, [apply]
    would stop before touching a widget. *)
Definition set_progress (pct : float) (u : ui) : ui :=
  let clamped := clamp pct in
  match PyFloat.round clamped with
  | Some value =>
      {| status_var := status_var u;
         progress_bar_value := value;
         percent_var := PyFloat.format_1f clamped ++ py "%";
         output_tail_var := output_tail_var u |}
  | None => u
  end.

(** The display after the calls [set_progress(p)] for [p] in [ps], applied
    in the order they were posted. *)
Definition display (ps : list float) (u : ui) : ui :=
  fold_left (fun u p => set_progress p u) ps u.

(** ** File types (lines 48-63) *)

Definition SYSTEM_FILETYPES : list (str * list str) :=
  [ (py "Sony PlayStation (PS1)", [py ".cue"; py ".iso"]);
    (py "Sony PlayStation 2 (PS2)", [py ".cue"; py ".iso"]);
    (py "Sega Saturn", [py ".cue"; py ".iso"]);
    (py "Sega Dreamcast", [py ".gdi"; py ".cue"; py ".cdi"; py ".iso"]);
    (py "Sega / Mega CD", [py ".cue"; py ".iso"]);
    (py "Neo Geo CD", [py ".cue"; py ".iso"]);
    (py "TurboGrafx / PC Engine CD", [py ".cue"; py ".iso"]);
    (py "3DO", [py ".cue"; py ".iso"]);
    (py "Commodore Amiga CD32", [py ".cue"; py ".iso"]) ].

(** [d.get(key, default)] *)
Fixpoint dict_get {V : Type} (d : list (str * V)) (key : str) (default : V) : V :=
  match d with
  | [] => default
  | (k, v) :: d' => if Py.eqb k key then v else dict_get d' key default
  end.

(** [sep.join(parts)] *)
Fixpoint str_join (sep : str) (parts : list str) : str :=
  match parts with
  | [] => []
  | [p] => p
  | p :: ps => p ++ sep ++ str_join sep ps
  end.

Definition build_filetypes (system : str) : list (str * str) * list str :=
  let exts := dict_get SYSTEM_FILETYPES system [py ".cue"; py ".gdi"; py ".iso"] in
  let patterns := str_join (py " ") (map (fun e => py "*" ++ e) exts) in
  ([(py "Disc files", patterns); (py "All files", py "*.*")], exts).

(** ** The batch (lines 161-176 and 202-213) *)

(** The library functions of [os.path] and [glob] the batch relies on;
    they depend on the platform and on the file system. *)
Record os_lib := {
  splitext : str -> str * str;         (* os.path.splitext *)
  basename : str -> str;               (* os.path.basename *)
  join : str -> str -> str;            (* os.path.join *)
  glob : str -> list str               (* glob.glob *)
}.

(** [str(n)] of a non-negative [int] *)
Definition str_of_nat (n : nat) : str :=
  Py.lit (NilZero.string_of_uint (Nat.to_uint n)).

(** [f"[{idx}/{total}] Converting: {os.path.basename(f)}"] *)
Definition converting_message (os : os_lib) (idx total : nat) (f : str) : str :=
  py "[" ++ str_of_nat idx ++ py "/" ++ str_of_nat total ++ py "] Converting: "
     ++ basename os f.

(** [f"{system}\nConverted: {success}\nFailed: {fail}"] *)
Definition summary_message (system : str) (success fail : nat) : str :=
  system ++ [newline] ++ py "Converted: " ++ str_of_nat success
         ++ [newline] ++ py "Failed: " ++ str_of_nat fail.

(** The [for idx, f in enumerate(files, 1)] loop.  [procs idx] is what the
    operating system answers to the launch made for the file number
    [idx]. *)
Fixpoint convert_loop (os : os_lib) (CHDMAN_PATH : option str)
         (procs : nat -> process) (system : str)
         (total idx success fail : nat) (files : list str)
  : list event * outcome (nat * nat) :=
  match files with
  | [] => ([], Return (success, fail))
  | f :: rest =>
      let output_file := fst (splitext os f) ++ py ".chd" in
      let head := [SetStatus (converting_message os idx total f); SetProgress 0] in
      let subcmd := choose_subcommand system f in
      match run_chdman CHDMAN_PATH (procs idx) f output_file (Some SetProgress) subcmd with
      | (tr, Raise e) => (head ++ tr, Raise e)
      | (tr, Return ok) =>
          let (tr', r) :=
            convert_loop os CHDMAN_PATH procs system total (S idx)
                         (if ok then S success else success)
                         (if ok then fail else S fail) rest in
          (head ++ tr ++ tr', r)
      end
  end.

Definition convert_files (os : os_lib) (CHDMAN_PATH : option str)
           (procs : nat -> process) (files : list str) (system : str)
  : list event * outcome unit :=
  match convert_loop os CHDMAN_PATH procs system (length files) 1 0 0 files with
  | (tr, Raise e) => (tr, Raise e)
  | (tr, Return (success, fail)) =>
      (tr ++ [SetStatus (py "Idle"); SetProgress 0; SetPercentVar [];
              ShowInfo (py "Batch Complete") (summary_message system success fail)],
       Return tt)
  end.

(** [select_batch]: [system] is [system_var.get()], [folder] the answer of
    the folder dialog (empty when it is cancelled).  The events of the
    worker thread follow its start. *)
Definition select_batch (os : os_lib) (CHDMAN_PATH : option str)
           (procs : nat -> process) (system folder : str)
  : list event :=
  match folder with
  | [] => []                            (* if not folder: return *)
  | _ :: _ =>
      let exts := snd (build_filetypes system) in
      let files := flat_map (fun e => glob os (join os folder (py "*" ++ e))) exts in
      match files with
      | [] => [ShowWarning (py "No files") (py "No .cue/.gdi/.iso files found.")]
      | _ :: _ => ThreadStart :: fst (convert_files os CHDMAN_PATH procs files system)
      end
  end.

(* ================================================================== *)
(** * Part I, continued.  The vocabulary of the statements              *)
(* ================================================================== *)

(** ** Vocabulary of the sub-command rule *)

(** The two conditions of the selection rule, in the words of the
    specification: the profile names the DVD-capable platform, and the
    input path carries the raw-image extension in any letter case. *)
Definition spec_dvd_capable (system : str) : Prop :=
  exists pre post, system = pre ++ py "PlayStation 2" ++ post.

(** The raw-image extension in any letter case: a dot, then the letters
    i, s and o, each of them small or capital. *)
Definition spec_iso_extension (ext : str) : Prop :=
  exists i s o,
    ext = ["."%char; i; s; o]
    /\ (i = "i"%char \/ i = "I"%char)
    /\ (s = "s"%char \/ s = "S"%char)
    /\ (o = "o"%char \/ o = "O"%char).

Definition spec_raw_image (input_path : str) : Prop :=
  exists stem ext, input_path = stem ++ ext /\ spec_iso_extension ext.

(** ** Vocabulary of the runs of the tool *)

(** The reads reach the end of the output without raising. *)
Fixpoint reads_to_end (rs : list read_result) : bool :=
  match rs with
  | [] => true
  | ReadRaises _ :: _ => false
  | Chunk [] :: _ => true
  | Chunk (_ :: _) :: rest => reads_to_end rest
  end.

(** The child was launched, its output was read to the end and
    [proc.wait()] left [returncode] in [proc.returncode]. *)
Definition exits_with (proc : process) (returncode : Z) : Prop :=
  popen_raises proc = None
  /\ reads_to_end (reads proc) = true
  /\ wait_result proc = Return returncode.

(** [Popen], a read or [wait] raises. *)
Definition faults (proc : process) : Prop :=
  popen_raises proc <> None
  \/ reads_to_end (reads proc) = false
  \/ exists e, wait_result proc = Raise e.

(** A run of the tool that prints [50%] in two pieces and succeeds. *)
Definition proc_fifty : process :=
  {| popen_raises := None; log_opens := true;
     reads := [Chunk (py "5"); Chunk (py "0%")];
     wait_result := Return 0%Z |}.

(** A run whose output cannot be decoded after the first piece. *)
Definition proc_undecodable : process :=
  {| popen_raises := None; log_opens := true;
     reads := [Chunk (py "12%"); ReadRaises UnicodeDecodeError];
     wait_result := Return 0%Z |}.

(** A run that prints [123.4%] in three pieces and fails. *)
Definition proc_out_of_range : process :=
  {| popen_raises := None; log_opens := false;
     reads := [Chunk (py "12"); Chunk (py "3"); Chunk (py ".4%")];
     wait_result := Return 1%Z |}.

(** A run that ends with exit code 1 after printing nothing. *)
Definition proc_failing : process :=
  {| popen_raises := None; log_opens := false; reads := [];
     wait_result := Return 1%Z |}.

(** ** Vocabulary of the progress pattern *)

(** What the pattern accepts, in the words of the specification: a token
    is one to three digits with an optional fraction of a dot and at
    least one digit; a match is a token, a run of blanks and a percent
    sign. *)
Definition spec_token (g : str) : Prop :=
  exists ds fr,
    g = ds ++ fr
    /\ 1 <= length ds <= 3
    /\ forallb Re.is_digit ds = true
    /\ (fr = [] \/
        exists fs, fr = "."%char :: fs /\ fs <> [] /\ forallb Re.is_digit fs = true).

Definition spec_match (s g : str) (n : nat) : Prop :=
  exists ws r,
    spec_token g
    /\ forallb Re.is_space ws = true
    /\ s = g ++ ws ++ "%"%char :: r
    /\ n = length g + length ws + 1.

(** The parsed value of a match lies in [0.0, 100.0]. *)
Definition in_range (m : Re.rmatch) : bool :=
  match PyFloat.of_str (Re.group1 m) with
  | Some pct => ((0 <=? pct) && (pct <=? 100))%float
  | None => false
  end.

Definition not_percent (c : ascii) : bool := negb (Re.is_percent c).

(** A match straddles the offset [c] when it starts before [c] and ends
    after it. *)
Definition straddles (m : Re.rmatch) (c : nat) : bool :=
  (Re.m_start m <? c) && (c <? Re.m_end m).

(** The offsets in the stream at which the rolling buffer was cut: [off]
    is the offset of the head of [buffer]. *)
Fixpoint truncation_points (off : nat) (buffer : str) (chunks : list str)
  : list nat :=
  match chunks with
  | [] => []
  | chunk :: rest =>
      let b := buffer ++ chunk in
      if 128 <? length b
      then let cut := off + (length b - 16) in
           cut :: truncation_points cut (Py.last_n 16 b) rest
      else truncation_points off b rest
  end.

(** No token of the whole stream straddles a truncation point. *)
Definition no_straddle (chunks : list str) : bool :=
  forallb
    (fun c => forallb (fun m => negb (straddles m c)) (Re.finditer (concat chunks)))
    (truncation_points 0 [] chunks).

(** [m] is a match read from what is left of a token after a cut: a
    match [m0] of [scan] starts before the truncation point [c], and [m]
    is a match of the pattern at an offset from [c] on that ends where
    [m0] ends.  [off] is the offset of the head of [text]. *)
Definition remnant (off : nat) (text : str) (cuts : list nat)
           (scan : list Re.rmatch) (m : Re.rmatch) : Prop :=
  exists m0 c,
    In m0 scan /\ In c cuts
    /\ Re.m_start m0 < c /\ c <= Re.m_start m
    /\ Re.m_start m < Re.m_end m /\ Re.m_end m = Re.m_end m0
    /\ spec_match (skipn (Re.m_start m - off) text) (Re.group1 m)
                  (Re.m_end m - Re.m_start m).

(** ** Example runs *)

(** A run of [chdman] output: progress lines ended by carriage returns,
    delivered in chunks that split the tokens. *)
Definition progress_line (pct : str) : str :=
  py "Compressing, " ++ pct ++ py "% complete... (ratio=40.5%)" ++ [carriage_return].

(** [text] delivered in pieces of the given sizes, then the remainder. *)
Fixpoint chunked (sizes : list nat) (text : str) : list str :=
  match sizes with
  | [] => [text]
  | n :: sizes' => firstn n text :: chunked sizes' (skipn n text)
  end.

Definition output_example : str :=
  progress_line (py "9.8") ++ progress_line (py "12.5") ++ progress_line (py "57")
  ++ progress_line (py "99.9") ++ progress_line (py "100")
  ++ progress_line (py "150.5") ++ progress_line (py "3")
  ++ progress_line (py "100.0").

(** The buffer is cut at the offsets 118 and 246, between two tokens. *)
Definition chunks_example : list str :=
  chunked [15; 64; 55; 64; 64; 64] output_example.

(** The same output as [read(64)] delivers it. *)
Definition chunks_by_64 : list str :=
  chunked [64; 64; 64; 64; 64] output_example.

(** A stream in which the token [250%] is cut after its first digit. *)
Definition chunks_straddling : list str :=
  [ repeat "x"%char 64; repeat "x"%char 48 ++ py "250%" ++ repeat "y"%char 12;
    py "y"; py "z" ].

(** ** Vocabulary of the batch *)

(** The number a run of decimal digits denotes; [None] when [s] is not
    such a run. *)
Definition decimal_value (s : str) : option nat :=
  option_map Nat.of_uint (NilZero.uint_of_string (string_of_list_ascii s)).

(** The text of the completion dialog, in the words of the
    specification: the system, then the count of converted files, then
    the count of failed files, each on a line of its own. *)
Definition spec_summary (system : str) (converted failed : nat) (message : str)
  : Prop :=
  exists c f : str,
    decimal_value c = Some converted /\ decimal_value f = Some failed
    /\ message = system ++ [newline] ++ py "Converted: " ++ c
                        ++ [newline] ++ py "Failed: " ++ f.

(** The conversion of the file number [idx]: the trace and the result of
    its [run_chdman]. *)
Definition job (os : os_lib) (CHDMAN_PATH : option str) (procs : nat -> process)
           (system : str) (idx : nat) (f : str) : list event * outcome bool :=
  run_chdman CHDMAN_PATH (procs idx) f (fst (splitext os f) ++ py ".chd")
             (Some SetProgress) (choose_subcommand system f).

Definition job_succeeds (os : os_lib) (CHDMAN_PATH : option str)
           (procs : nat -> process) (system : str) (job_ : nat * str) : bool :=
  match snd (job os CHDMAN_PATH procs system (fst job_) (snd job_)) with
  | Return true => true
  | _ => false
  end.

(** What the batch does for one file: the status line, the reset of the
    progress, then the conversion. *)
Definition job_events (os : os_lib) (CHDMAN_PATH : option str)
           (procs : nat -> process) (system : str) (total : nat)
           (job_ : nat * str) : list event :=
  [SetStatus (converting_message os (fst job_) total (snd job_)); SetProgress 0]
    ++ fst (job os CHDMAN_PATH procs system (fst job_) (snd job_)).

(** [enumerate(files, start)] *)
Definition enumerate (start : nat) (files : list str) : list (nat * str) :=
  combine (seq start (length files)) files.

(** The number of files whose conversion returns [True]. *)
Definition successes (os : os_lib) (CHDMAN_PATH : option str)
           (procs : nat -> process) (system : str)
           (start : nat) (files : list str) : nat :=
  length (filter (job_succeeds os CHDMAN_PATH procs system) (enumerate start files)).

(** Path functions for names with a three-letter extension, over a file
    system in which no pattern matches. *)
Definition os_example : os_lib :=
  {| splitext := fun f => (firstn (length f - 4) f, skipn (length f - 4) f);
     basename := fun f => f;
     join := fun d f => d ++ py "/" ++ f;
     glob := fun _ => [] |}.

(* ================================================================== *)
(** * Part I, continued.  The rest of the program                        *)
(* ================================================================== *)

(** ** The systems of the drop-down list (lines 32-42) *)

Definition SYSTEMS : list str :=
  [ py "Sony PlayStation (PS1)";
    py "Sony PlayStation 2 (PS2)";
    py "Sega Saturn";
    py "Sega Dreamcast";
    py "Sega / Mega CD";
    py "SNK Neo Geo CD";
    py "NEC TurboGrafx CD / PC Engine CD";
    py "3DO";
    py "Commodore Amiga CD32" ].

(** [key in d] *)
Definition dict_has {V : Type} (d : list (str * V)) (key : str) : bool :=
  existsb (fun kv => Py.eqb (fst kv) key) d.

(** ** Locating the tool (lines 20-28) *)

(** What the file system answers: [os.path.isfile], [os.path.isdir] and
    [shutil.which]. *)
Record fs_lib := {
  isfile : str -> bool;
  isdir : str -> bool;
  which : str -> option str
}.

(** [find_chdman()]; [base_dir] is the folder of the program (or of its
    unpacked bundle). *)
Definition find_chdman (os : os_lib) (fs : fs_lib) (base_dir : str) : option str :=
  let local_path := join os base_dir (py "chdman.exe") in
  if isfile fs local_path then Some local_path
  else
    let found := which fs (py "chdman") in
    if truthy found then found else None.

(** ** The single conversion (lines 179-200) *)

(** [select_single]: [cue_file] and [save_file] are the answers of the two
    file dialogs (empty when cancelled); [proc] is what the operating
    system answers to the launch.  The events of the worker thread follow
    its start. *)
Definition select_single (os : os_lib) (CHDMAN_PATH : option str) (proc : process)
           (system cue_file save_file : str) : list event :=
  match cue_file with
  | [] => []                            (* if not cue_file: return *)
  | _ :: _ =>
      match save_file with
      | [] => []                        (* if not save_file: return *)
      | _ :: _ =>
          let subcmd := choose_subcommand system cue_file in
          let head :=
            [SetStatus (py "[1/1] Converting: " ++ basename os cue_file);
             SetProgress 0] in
          match run_chdman CHDMAN_PATH proc cue_file save_file
                           (Some SetProgress) subcmd with
          | (tr, Raise _) => ThreadStart :: head ++ tr
          | (tr, Return ok) =>
              ThreadStart :: head ++ tr
                ++ [SetStatus (py "Idle"); SetProgress 0; SetPercentVar [];
                    ShowInfo (py "Conversion Complete")
                             (summary_message system (if ok then 1 else 0)
                                              (if ok then 0 else 1))]
          end
      end
  end.

(** ** Drag and drop (lines 215-229) *)

(** [s.endswith(tuple)] *)
Definition endswith_any (s : str) (sufs : list str) : bool :=
  existsb (Py.endswith s) sufs.

Definition DROP_EXTENSIONS : list str :=
  [py ".cue"; py ".gdi"; py ".iso"; py ".cdi"].

(** The first loop of [handle_drop]: the dropped files kept and the
    dropped folders, both in the order of the drop. *)
Fixpoint drop_sort (fs : fs_lib) (paths : list str) : list str * list str :=
  match paths with
  | [] => ([], [])
  | p :: rest =>
      let (files, folders) := drop_sort fs rest in
      if isfile fs p && endswith_any (Py.lower p) DROP_EXTENSIONS
      then (p :: files, folders)
      else if isdir fs p then (files, p :: folders)
      else (files, folders)
  end.

(** The second loop: what the four patterns find in one folder. *)
Definition drop_folder (os : os_lib) (folder : str) : list str :=
  glob os (join os folder (py "*.cue")) ++ glob os (join os folder (py "*.gdi"))
  ++ glob os (join os folder (py "*.iso")) ++ glob os (join os folder (py "*.cdi")).

(** The files a drop hands to the conversion. *)
Definition drop_files (os : os_lib) (fs : fs_lib) (paths : list str) : list str :=
  let (files, folders) := drop_sort fs paths in
  files ++ flat_map (drop_folder os) folders.

(** [handle_drop]: [paths] is [root.tk.splitlist(event.data)], [system]
    is [system_var.get()]. *)
Definition handle_drop (os : os_lib) (fs : fs_lib) (CHDMAN_PATH : option str)
           (procs : nat -> process) (system : str) (paths : list str)
  : list event :=
  match drop_files os fs paths with
  | [] => []
  | files => ThreadStart :: fst (convert_files os CHDMAN_PATH procs files system)
  end.

(** ** Vocabulary of the further statements *)

(** A list of extensions holds [.cue] and [.iso] and nothing a drop would
    refuse. *)
Definition extensions_ok (exts : list str) : bool :=
  existsb (Py.eqb (py ".cue")) exts && existsb (Py.eqb (py ".iso")) exts
  && forallb (fun e => existsb (Py.eqb e) DROP_EXTENSIONS) exts.


(** The texts written to the log and the texts sent to the tail label. *)
Definition log_writes (tr : list event) : list str :=
  flat_map (fun e => match e with LogWrite c => [c] | _ => [] end) tr.

Definition tails (tr : list event) : list str :=
  flat_map (fun e => match e with OutputTail t => [t] | _ => [] end) tr.

(** The command lines launched. *)
Definition launches (tr : list event) : list (list str) :=
  flat_map (fun e => match e with Popen argv => [argv] | _ => [] end) tr.

(** The error alerts shown. *)
Definition error_alerts (tr : list event) : nat :=
  length (filter (fun e => match e with ShowError _ _ => true | _ => false end) tr).

Definition is_callback (e : event) : bool :=
  match e with Callback _ => true | _ => false end.

(** The ways the program supplies the callback of [run_chdman]: not at
    all, a callback that records its argument, or [set_progress]. *)
Variant callback_kind := NoCallback | Recording | Display.

Definition callback_of (k : callback_kind) : option (float -> event) :=
  match k with
  | NoCallback => None
  | Recording => Some Callback
  | Display => Some SetProgress
  end.

(** A tail shown in the window: at most 80 characters, none of them a
    carriage return or a line feed. *)
Definition tail_ok (t : str) : bool :=
  (length t <=? 80)
  && forallb (fun c => negb (Ascii.eqb c carriage_return) && negb (Ascii.eqb c newline)) t.

(** The values [set_progress] was called with. *)
Definition progress_calls (tr : list event) : list float :=
  flat_map (fun e => match e with SetProgress p => [p] | _ => [] end) tr.

(** The values the callback of kind [k] was called with. *)
Definition called (k : callback_kind) (tr : list event) : list float :=
  match k with
  | NoCallback => []
  | Recording => callbacks tr
  | Display => progress_calls tr
  end.

(** [0.0 <= p <= 100.0] *)
Definition percent_ok (p : float) : bool := PyFloat.between 0 p 100.

(** A dropped path that is kept as a file, resp. as a folder. *)
Definition drop_is_file (fs : fs_lib) (p : str) : bool :=
  isfile fs p && endswith_any (Py.lower p) DROP_EXTENSIONS.

Definition drop_is_folder (fs : fs_lib) (p : str) : bool :=
  negb (drop_is_file fs p) && isdir fs p.

(** [not s] for a string *)
Definition is_empty (s : str) : bool :=
  match s with [] => true | _ :: _ => false end.

(** The command line of the conversion of [f] in a batch. *)
Definition batch_argv (os : os_lib) (tool system f : str) : list str :=
  [tool; choose_subcommand system f; py "-i"; f; py "-o";
   fst (splitext os f) ++ py ".chd"].

(** What holds of a match found by the scan of [s] started at offset
    [pos] with [skip] characters still covered. *)
Definition found_in (pos skip : nat) (s : str) (m : Re.rmatch) : Prop :=
  pos + skip <= Re.m_start m
  /\ Re.m_start m < Re.m_end m <= pos + length s
  /\ spec_match (skipn (Re.m_start m - pos) s) (Re.group1 m) (Re.m_end m - Re.m_start m).

(** A folder with two disc images. *)
Definition os_two_images : os_lib :=
  {| splitext := splitext os_example;
     basename := basename os_example;
     join := join os_example;
     glob := fun pattern =>
               if Py.eqb pattern (py "/roms/*.cue") then [py "/roms/a.cue"]
               else if Py.eqb pattern (py "/roms/*.iso") then [py "/roms/b.iso"]
               else [] |}.

(** A file system with one disc image, one text file and one folder. *)
Definition fs_example : fs_lib :=
  {| isfile := fun p => Py.eqb p (py "/d/Game.CDI") || Py.eqb p (py "/d/readme.txt");
     isdir := fun p => Py.eqb p (py "/roms");
     which := fun _ => None |}.

(** A file system with the tool beside the program and another on the
    search path. *)
Definition fs_bundled : fs_lib :=
  {| isfile := fun p => Py.eqb p (py "/app/chdman.exe");
     isdir := fun _ => false;
     which := fun _ => Some (py "/usr/bin/chdman") |}.

(* ================================================================== *)
(** * Part II.  Properties                                              *)
(* ================================================================== *)

(** ** Strings *)

Section StringFacts.

Lemma eqb_eq (s t : str) : Py.eqb s t = true <-> s = t.
Proof.
  revert t; induction s as [|a s IH]; intros [|b t]; simpl;
    try (split; [discriminate | congruence]); try tauto.
  rewrite andb_true_iff, Ascii.eqb_eq, IH.
  split; [intros [-> ->]; reflexivity | intros [= -> ->]; auto].
Qed.

Lemma startswith_spec (s p : str) :
  Py.startswith s p = true <-> exists r, s = p ++ r.
Proof.
  revert s; induction p as [|a p IH]; intros s; simpl.
  - split; [exists s; reflexivity | reflexivity].
  - destruct s as [|b s].
    + split; [discriminate | intros [r [=]]].
    + rewrite andb_true_iff, Ascii.eqb_eq, IH. split.
      * intros [-> [r ->]]. exists r; reflexivity.
      * intros [r [= -> ->]]. split; [reflexivity | exists r; reflexivity].
Qed.

Lemma contains_spec (sub s : str) :
  Py.contains sub s = true <-> exists pre post, s = pre ++ sub ++ post.
Proof.
  induction s as [|c s IH]; simpl; rewrite orb_true_iff, startswith_spec.
  - split.
    + intros [[r H] | H]; [exists [], r; exact H | discriminate].
    + intros [pre [post H]]. left. destruct pre as [|x pre]; [|discriminate].
      exists post; exact H.
  - rewrite IH. split.
    + intros [[r H] | [pre [post H]]].
      * exists [], r; exact H.
      * exists (c :: pre), post. simpl. rewrite H. reflexivity.
    + intros [[|x pre] [post H]].
      * left. exists post; exact H.
      * right. injection H as _ H. exists pre, post; exact H.
Qed.

Lemma endswith_spec (s suf : str) :
  Py.endswith s suf = true <-> exists pre, s = pre ++ suf.
Proof.
  unfold Py.endswith. rewrite andb_true_iff, Nat.leb_le, eqb_eq. split.
  - intros [_ H]. exists (firstn (length s - length suf) s).
    rewrite <- H at 2. symmetry; apply firstn_skipn.
  - intros [pre ->]. rewrite length_app. split; [lia|].
    replace (length pre + length suf - length suf) with (length pre + 0) by lia.
    rewrite skipn_app, Nat.add_0_r, skipn_all. simpl.
    replace (length pre - length pre) with 0 by lia. reflexivity.
Qed.

End StringFacts.

(** ** Sub-command choice *)

Lemma lower_char_letter (c x : ascii) :
  In x ["."%char; "i"%char; "s"%char; "o"%char] ->
  Py.lower_char c = x ->
  c = x \/ (x <> "."%char /\ c = ascii_of_nat (Py.code x - 32)).
Proof.
  intros [<- | [<- | [<- | [<- | []]]]];
    destruct c as [[] [] [] [] [] [] [] []]; vm_compute; intros H;
    try discriminate H; auto; right; split; try reflexivity; discriminate.
Qed.

(** Lower-casing gives [.iso] exactly for the eight spellings of the
    extension. *)
Lemma lower_iso_iff (ext : str) :
  Py.lower ext = py ".iso" <-> spec_iso_extension ext.
Proof.
  split.
  - destruct ext as [|a [|b [|c [|d [|e ext]]]]]; try discriminate.
    unfold Py.lower. simpl map. intros [= Ha Hb Hc Hd].
    apply (lower_char_letter a) in Ha; [|simpl; auto].
    apply (lower_char_letter b) in Hb; [|simpl; auto].
    apply (lower_char_letter c) in Hc; [|simpl; auto].
    apply (lower_char_letter d) in Hd; [|simpl; auto].
    destruct Ha as [-> | [Ha _]]; [|contradiction].
    exists b, c, d. split; [reflexivity|].
    repeat split; [destruct Hb as [-> | [_ ->]] | destruct Hc as [-> | [_ ->]]
                   | destruct Hd as [-> | [_ ->]]]; auto.
  - intros (i & s & o & -> & [-> | ->] & [-> | ->] & [-> | ->]); reflexivity.
Qed.

Lemma raw_image_iff (input_path : str) :
  Py.endswith (Py.lower input_path) (py ".iso") = true <-> spec_raw_image input_path.
Proof.
  rewrite endswith_spec. unfold spec_raw_image. split.
  - intros [pre H].
    exists (firstn (length pre) input_path), (skipn (length pre) input_path).
    split; [symmetry; apply firstn_skipn|]. apply lower_iso_iff.
    unfold Py.lower in *.
    rewrite <- skipn_map, H, skipn_app, skipn_all, Nat.sub_diag. reflexivity.
  - intros [stem [ext [-> H]]]. apply lower_iso_iff in H.
    exists (Py.lower stem). unfold Py.lower in *. rewrite map_app, H. reflexivity.
Qed.

(** C1.  [choose_subcommand] answers [createdvd] exactly when the system
    names PlayStation 2 and the input path ends in the extension [.iso]
    spelt in any letter case, and [createcd] in every other case; so
    [GT4.ISO] and [disc.Iso] go to [createdvd] for PlayStation 2, and an
    [.iso] for another system or a [.cue] for PlayStation 2 go to
    [createcd]. *)
Theorem choose_subcommand_rule (system input_path : str) :
  (choose_subcommand system input_path = py "createdvd"
     <-> spec_dvd_capable system /\ spec_raw_image input_path)
  /\ (choose_subcommand system input_path = py "createcd"
     <-> ~ (spec_dvd_capable system /\ spec_raw_image input_path))
  /\ choose_subcommand (py "Sony PlayStation 2 (PS2)") (py "D:/Games/GT4.ISO")
     = py "createdvd"
  /\ choose_subcommand (py "Sony PlayStation 2 (PS2)") (py "disc.Iso")
     = py "createdvd"
  /\ choose_subcommand (py "Sony PlayStation (PS1)") (py "disc.iso")
     = py "createcd"
  /\ choose_subcommand (py "Sony PlayStation 2 (PS2)") (py "disc.cue")
     = py "createcd".
Proof.
  assert (Hrule :
            (choose_subcommand system input_path = py "createdvd"
             <-> spec_dvd_capable system /\ spec_raw_image input_path)
            /\ (choose_subcommand system input_path = py "createcd"
                <-> ~ (spec_dvd_capable system /\ spec_raw_image input_path))).
  { unfold choose_subcommand, spec_dvd_capable.
    rewrite <- raw_image_iff, <- contains_spec, <- andb_true_iff.
    destruct (Py.contains (py "PlayStation 2") system
              && Py.endswith (Py.lower input_path) (py ".iso")).
    - split; split; auto; try discriminate. intros H; exfalso; auto.
    - split; split; auto; try discriminate. }
  destruct Hrule as [H1 H2].
  split; [exact H1|]. split; [exact H2|].
  repeat split; vm_compute; reflexivity.
Qed.

(** ** [run_chdman]: the result and the final callback *)

Section RunChdman.

Variables (input_file output_file subcommand : str).
Variable progress_cb : option (float -> event).

Lemma stream_to_end (logf : bool) (rs : list read_result) (buffer : str) :
  reads_to_end rs = true ->
  snd (stream progress_cb logf buffer rs) = Return tt.
Proof.
  revert buffer; induction rs as [|r rs IH]; intros buffer H; simpl; auto.
  destruct r as [[|c chunk] | e]; simpl in *; try discriminate; auto.
  specialize (IH (truncate (buffer ++ c :: chunk)) H).
  destruct (stream progress_cb logf (truncate (buffer ++ c :: chunk)) rs).
  exact IH.
Qed.

Lemma stream_raises (logf : bool) (rs : list read_result) (buffer : str) :
  reads_to_end rs = false ->
  exists e, snd (stream progress_cb logf buffer rs) = Raise e.
Proof.
  revert buffer; induction rs as [|r rs IH]; intros buffer H; simpl in *;
    try discriminate.
  destruct r as [[|c chunk] | e]; simpl in *; try discriminate.
  - destruct (IH (truncate (buffer ++ c :: chunk)) H) as [e He].
    destruct (stream progress_cb logf (truncate (buffer ++ c :: chunk)) rs).
    exists e; exact He.
  - exists e; reflexivity.
Qed.

Lemma run_chdman_try_faults (tool : str) (proc : process) :
  faults proc ->
  exists e,
    snd (run_chdman_try tool proc input_file output_file progress_cb subcommand)
    = Raise e.
Proof.
  unfold run_chdman_try. intros H.
  destruct (popen_raises proc) as [e|] eqn:Hp; [exists e; reflexivity|].
  destruct (reads_to_end (reads proc)) eqn:Hr.
  - pose proof (stream_to_end (log_opens proc) (reads proc) [] Hr) as Hs.
    destruct (stream progress_cb (log_opens proc) [] (reads proc)) as [tr r].
    simpl in Hs; subst r.
    destruct H as [H | [H | [e He]]]; try congruence.
    rewrite He. exists e; reflexivity.
  - destruct (stream_raises (log_opens proc) (reads proc) [] Hr) as [e He].
    destruct (stream progress_cb (log_opens proc) [] (reads proc)) as [tr r].
    simpl in He; subst r. exists e; reflexivity.
Qed.

Lemma run_chdman_try_exits (tool : str) (proc : process) (returncode : Z) :
  exits_with proc returncode ->
  exists tr,
    run_chdman_try tool proc input_file output_file progress_cb subcommand
    = (Popen [tool; subcommand; py "-i"; input_file; py "-o"; output_file]
         :: tr
         ++ match progress_cb with
            | Some cb => if (returncode =? 0)%Z then [cb 100%float] else []
            | None => []
            end,
       Return (returncode =? 0)%Z).
Proof.
  intros (Hp & Hr & Hw). unfold run_chdman_try. rewrite Hp, Hw.
  pose proof (stream_to_end (log_opens proc) (reads proc) [] Hr) as Hs.
  destruct (stream progress_cb (log_opens proc) [] (reads proc)) as [tr r].
  simpl in Hs; subst r. exists tr; reflexivity.
Qed.

Lemma run_chdman_found (CHDMAN_PATH : option str) (proc : process) :
  truthy CHDMAN_PATH = true ->
  exists tool,
    CHDMAN_PATH = Some tool /\
    run_chdman CHDMAN_PATH proc input_file output_file progress_cb subcommand
    = match run_chdman_try tool proc input_file output_file progress_cb subcommand with
      | (tr, Raise _) => (tr, Return false)
      | (tr, Return b) => (tr, Return b)
      end.
Proof.
  destruct CHDMAN_PATH as [tool|]; [|discriminate]. intros H.
  exists tool. split; [reflexivity|]. unfold run_chdman. rewrite H. reflexivity.
Qed.

(** Whatever the tool and the system do, [run_chdman] returns. *)
Lemma run_chdman_returns (CHDMAN_PATH : option str) (proc : process) :
  exists b,
    snd (run_chdman CHDMAN_PATH proc input_file output_file progress_cb subcommand)
    = Return b.
Proof.
  unfold run_chdman. destruct CHDMAN_PATH as [tool|]; [|exists false; reflexivity].
  destruct (truthy (Some tool)); [|exists false; reflexivity].
  destruct (run_chdman_try tool proc input_file output_file progress_cb subcommand)
    as [tr [b|e]]; [exists b | exists false]; reflexivity.
Qed.

End RunChdman.

Lemma callbacks_app (a b : list event) :
  callbacks (a ++ b) = callbacks a ++ callbacks b.
Proof. unfold callbacks. apply flat_map_app. Qed.

(** C2, with the condition that the reads complete.  When the tool is
    found, the output of the child is read to its end without an
    exception, [wait] leaves the return code 0 and a callback is
    supplied, the last thing [run_chdman] does is to call the callback
    with 100.0, whatever was read from the child before; with a recording
    callback, the last value recorded is 100.0. *)
Theorem final_callback_is_100
        (CHDMAN_PATH : option str) (proc : process)
        (input_file output_file subcommand : str) (cb : float -> event) :
  truthy CHDMAN_PATH = true ->
  exits_with proc 0 ->
  (exists tr,
      fst (run_chdman CHDMAN_PATH proc input_file output_file (Some cb) subcommand)
      = tr ++ [cb 100%float])
  /\ (exists ps,
      callbacks
        (fst (run_chdman CHDMAN_PATH proc input_file output_file (Some Callback) subcommand))
      = ps ++ [100%float]).
Proof.
  intros Hpath Hexit. split.
  - destruct (run_chdman_found input_file output_file subcommand (Some cb) _ proc Hpath)
      as (tool & _ & ->).
    destruct (run_chdman_try_exits input_file output_file subcommand (Some cb) tool proc 0%Z Hexit)
      as [tr ->].
    simpl. exists (Popen [tool; subcommand; py "-i"; input_file; py "-o"; output_file] :: tr).
    reflexivity.
  - destruct (run_chdman_found input_file output_file subcommand (Some Callback) _ proc Hpath)
      as (tool & _ & ->).
    destruct (run_chdman_try_exits input_file output_file subcommand (Some Callback) tool proc 0%Z Hexit)
      as [tr ->].
    simpl. exists (callbacks tr). rewrite callbacks_app. reflexivity.
Qed.

Lemma final_callback_is_100_witness :
  (truthy (Some (py "chdman")) = true /\ exits_with proc_fifty 0)
  /\ ((exists tr,
          fst (run_chdman (Some (py "chdman")) proc_fifty (py "a.cue") (py "a.chd")
                          (Some SetProgress) (py "createcd"))
          = tr ++ [SetProgress 100%float])
      /\ (exists ps,
          callbacks
            (fst (run_chdman (Some (py "chdman")) proc_fifty (py "a.cue") (py "a.chd")
                             (Some Callback) (py "createcd")))
          = ps ++ [100%float])).
Proof.
  split.
  - split; [reflexivity | repeat split; reflexivity].
  - apply (@final_callback_is_100 (Some (py "chdman")) proc_fifty).
    + reflexivity.
    + repeat split; reflexivity.
Defined.

Lemma float_12_not_100 : 12%float <> 100%float.
Proof.
  intros H. assert (E : PrimFloat.eqb 12 100 = PrimFloat.eqb 100 100)
    by (rewrite H; reflexivity).
  vm_compute in E. discriminate.
Qed.

(** C2 does not hold without the condition on the reads.  The tool is
    found, a callback is supplied, the launch succeeds and the child
    ends with exit code 0, but its output cannot be decoded after the
    first piece: the read raises, [run_chdman] returns [False] through
    its handler, and the last value the callback received is the 12.0
    parsed before, not 100.0. *)
Lemma final_callback_after_failed_read :
  truthy (Some (py "chdman")) = true
  /\ popen_raises proc_undecodable = None
  /\ wait_result proc_undecodable = Return 0%Z
  /\ run_chdman (Some (py "chdman")) proc_undecodable (py "a.cue") (py "a.chd")
                (Some Callback) (py "createcd")
     = ([Popen [py "chdman"; py "createcd"; py "-i"; py "a.cue"; py "-o"; py "a.chd"];
         OutputTail (py "12%"); LogWrite (py "12%"); Callback 12],
        Return false)
  /\ ~ (exists ps,
           callbacks
             (fst (run_chdman (Some (py "chdman")) proc_undecodable (py "a.cue")
                              (py "a.chd") (Some Callback) (py "createcd")))
           = ps ++ [100%float]).
Proof.
  repeat split; try (vm_compute; reflexivity).
  intros [ps H].
  change (callbacks _) with [12%float] in H.
  destruct ps as [|p ps].
  - apply (f_equal (fun l => hd 0%float l)) in H. exact (float_12_not_100 H).
  - apply (f_equal (@length float)) in H. simpl in H.
    rewrite length_app in H. simpl in H. lia.
Qed.

(** C6.  When the tool is found and the child is launched, read to the
    end and awaited without an exception, [run_chdman] returns the
    boolean [returncode == 0]. *)
Theorem run_chdman_result
        (CHDMAN_PATH : option str) (proc : process)
        (input_file output_file subcommand : str)
        (progress_cb : option (float -> event)) (returncode : Z) :
  truthy CHDMAN_PATH = true ->
  exits_with proc returncode ->
  snd (run_chdman CHDMAN_PATH proc input_file output_file progress_cb subcommand)
  = Return (returncode =? 0)%Z.
Proof.
  intros Hpath Hexit.
  destruct (run_chdman_found input_file output_file subcommand progress_cb _ proc Hpath)
    as (tool & _ & ->).
  destruct (run_chdman_try_exits input_file output_file subcommand progress_cb tool proc returncode Hexit)
    as [tr ->].
  reflexivity.
Qed.

Lemma run_chdman_result_witness :
  (truthy (Some (py "chdman")) = true /\ exits_with proc_failing 1)
  /\ snd (run_chdman (Some (py "chdman")) proc_failing (py "a.cue") (py "a.chd")
                     None (py "createcd"))
     = Return false.
Proof.
  split.
  - split; [reflexivity | repeat split; reflexivity].
  - apply (@run_chdman_result (Some (py "chdman")) proc_failing _ _ _ None 1%Z).
    + reflexivity.
    + repeat split; reflexivity.
Defined.

(** C7.  When [Popen], a read of the output or [wait] raises,
    [run_chdman] returns [False]: the exception does not reach the
    caller. *)
Theorem run_chdman_swallows_exceptions
        (CHDMAN_PATH : option str) (proc : process)
        (input_file output_file subcommand : str)
        (progress_cb : option (float -> event)) :
  faults proc ->
  snd (run_chdman CHDMAN_PATH proc input_file output_file progress_cb subcommand)
  = Return false.
Proof.
  intros Hf. unfold run_chdman.
  destruct CHDMAN_PATH as [tool|]; [|reflexivity].
  destruct (truthy (Some tool)); [|reflexivity].
  destruct (run_chdman_try_faults input_file output_file subcommand progress_cb tool proc Hf)
    as [e He].
  destruct (run_chdman_try tool proc input_file output_file progress_cb subcommand)
    as [tr r].
  simpl in He; subst r. reflexivity.
Qed.

Lemma run_chdman_swallows_exceptions_witness :
  faults proc_undecodable
  /\ snd (run_chdman (Some (py "chdman")) proc_undecodable (py "a.cue") (py "a.chd")
                     (Some SetProgress) (py "createcd"))
     = Return false.
Proof.
  assert (H : faults proc_undecodable) by (right; left; reflexivity).
  split; [exact H|].
  exact (@run_chdman_swallows_exceptions (Some (py "chdman")) proc_undecodable
           (py "a.cue") (py "a.chd") (py "createcd") (Some SetProgress) H).
Defined.

(** C8.  When the tool was not found, [run_chdman] shows the error alert
    and returns [False]; that alert is its whole trace: no [Popen], no
    read of any output, no log write, no callback. *)
Theorem run_chdman_tool_missing
        (CHDMAN_PATH : option str) (proc : process)
        (input_file output_file subcommand : str)
        (progress_cb : option (float -> event)) :
  truthy CHDMAN_PATH = false ->
  run_chdman CHDMAN_PATH proc input_file output_file progress_cb subcommand
  = ([ShowError (py "Error") tool_missing_message], Return false).
Proof.
  intros H. unfold run_chdman.
  destruct CHDMAN_PATH as [tool|]; [|reflexivity].
  rewrite H. reflexivity.
Qed.

Lemma run_chdman_tool_missing_witness :
  truthy None = false
  /\ run_chdman None proc_fifty (py "a.cue") (py "a.chd") (Some SetProgress) (py "createcd")
     = ([ShowError (py "Error") tool_missing_message], Return false).
Proof.
  split; [reflexivity|].
  apply (@run_chdman_tool_missing None proc_fifty). reflexivity.
Defined.

(** ** The progress pattern *)

Section PatternFacts.

Import Re.

Ltac by_cases c :=
  destruct c as [[] [] [] [] [] [] [] []]; vm_compute; intros; congruence.

Lemma digit_not_space c : is_digit c = true -> is_space c = false.
Proof. by_cases c. Qed.
Lemma digit_not_dot c : is_digit c = true -> is_dot c = false.
Proof. by_cases c. Qed.
Lemma digit_not_percent c : is_digit c = true -> is_percent c = false.
Proof. by_cases c. Qed.
Lemma space_not_digit c : is_space c = true -> is_digit c = false.
Proof. by_cases c. Qed.
Lemma space_not_dot c : is_space c = true -> is_dot c = false.
Proof. by_cases c. Qed.
Lemma space_not_percent c : is_space c = true -> is_percent c = false.
Proof. by_cases c. Qed.

Lemma is_percent_eq c : is_percent c = true <-> c = "%"%char.
Proof. apply Ascii.eqb_eq. Qed.
Lemma is_dot_eq c : is_dot c = true <-> c = "."%char.
Proof. apply Ascii.eqb_eq. Qed.

(** [span] *)

Lemma span_spec (p : ascii -> bool) (s a b : str) :
  span p s = (a, b) ->
  s = a ++ b /\ forallb p a = true /\ (forall c b', b = c :: b' -> p c = false).
Proof.
  revert a b; induction s as [|c s IH]; intros a b; simpl.
  - intros [= <- <-]. repeat split. intros; discriminate.
  - destruct (p c) eqn:Hc.
    + destruct (span p s) as [a' b0]. intros [= <- <-].
      destruct (IH a' b0 eq_refl) as (-> & Ha & Hb).
      repeat split; simpl; try rewrite Hc; auto.
    + intros [= <- <-]. repeat split. intros c' b' [= <- <-]. exact Hc.
Qed.

Lemma span_stop (p : ascii -> bool) (a : str) (c : ascii) (r : str) :
  forallb p a = true -> p c = false -> span p (a ++ c :: r) = (a, c :: r).
Proof.
  intros Ha Hc; induction a as [|x a IH]; simpl in *.
  - rewrite Hc. reflexivity.
  - apply andb_true_iff in Ha as [Hx Ha]. rewrite Hx, (IH Ha). reflexivity.
Qed.

(** [digits] *)

Lemma digits_spec (n : nat) (s a b : str) :
  digits n s = Some (a, b) ->
  s = a ++ b /\ length a = n /\ forallb is_digit a = true.
Proof.
  revert s a b; induction n as [|n IH]; intros s a b; simpl.
  - intros [= <- <-]. auto.
  - destruct s as [|c s]; [discriminate|].
    destruct (is_digit c) eqn:Hc; [|discriminate].
    destruct (digits n s) as [[a' b0]|] eqn:Hd; [|discriminate].
    intros [= <- <-]. destruct (IH _ _ _ Hd) as (-> & Hl & Ha).
    simpl. rewrite Hc, Hl. auto.
Qed.

Lemma digits_exact (a r : str) :
  forallb is_digit a = true -> digits (length a) (a ++ r) = Some (a, r).
Proof.
  intros Ha; induction a as [|x a IH]; simpl in *; [reflexivity|].
  apply andb_true_iff in Ha as [Hx Ha]. rewrite Hx, (IH Ha). reflexivity.
Qed.

Lemma digits_short (n : nat) (a : str) (c : ascii) (r : str) :
  length a < n -> is_digit c = false -> digits n (a ++ c :: r) = None.
Proof.
  revert a; induction n as [|n IH]; intros a Hl Hc; [lia|].
  destruct a as [|x a]; simpl in *.
  - rewrite Hc. reflexivity.
  - destruct (is_digit x); [|reflexivity].
    rewrite IH; [reflexivity | lia | exact Hc].
Qed.

(** [\.\d+] and [\s*%] *)

Lemma fraction_spec (s fr r' : str) :
  fraction s = Some (fr, r') ->
  s = fr ++ r'
  /\ exists fs, fr = "."%char :: fs /\ fs <> [] /\ forallb is_digit fs = true.
Proof.
  unfold fraction. destruct s as [|c r]; [discriminate|].
  destruct (is_dot c) eqn:Hc; [|discriminate].
  apply is_dot_eq in Hc; subst c.
  destruct (span is_digit r) as [ds b] eqn:Hs.
  destruct (span_spec _ _ _ _ Hs) as (-> & Hd & _).
  destruct ds as [|d ds]; [discriminate|].
  intros [= <- <-]. split; [reflexivity|].
  exists (d :: ds). repeat split; [discriminate | exact Hd].
Qed.

Lemma blanks_percent_spec (s : str) (k : nat) :
  blanks_percent s = Some k ->
  exists ws r,
    s = ws ++ "%"%char :: r /\ k = S (length ws) /\ forallb is_space ws = true.
Proof.
  unfold blanks_percent. destruct (span is_space s) as [ws b] eqn:Hs.
  destruct (span_spec _ _ _ _ Hs) as (-> & Hw & _).
  destruct b as [|c r]; [discriminate|].
  destruct (is_percent c) eqn:Hc; [|discriminate].
  apply is_percent_eq in Hc; subst c.
  intros [= <-]. exists ws, r. auto.
Qed.

Lemma blanks_percent_exact (ws r : str) :
  forallb is_space ws = true ->
  blanks_percent (ws ++ "%"%char :: r) = Some (S (length ws)).
Proof.
  intros Hw. unfold blanks_percent.
  rewrite (span_stop is_space ws "%"%char r Hw eq_refl). reflexivity.
Qed.

(** What stands right after the number of a match is a blank or the
    percent sign: neither a digit nor a dot. *)
Lemma after_number (ws r : str) :
  forallb is_space ws = true ->
  exists c r',
    ws ++ "%"%char :: r = c :: r' /\ is_digit c = false /\ is_dot c = false.
Proof.
  intros Hw. destruct ws as [|w ws]; simpl in *.
  - exists "%"%char, r. auto.
  - apply andb_true_iff in Hw as [Hw _]. exists w, (ws ++ "%"%char :: r).
    auto using space_not_digit, space_not_dot.
Qed.

Lemma fraction_exact (fs ws r : str) :
  fs <> [] -> forallb is_digit fs = true -> forallb is_space ws = true ->
  fraction ("."%char :: fs ++ ws ++ "%"%char :: r)
  = Some ("."%char :: fs, ws ++ "%"%char :: r).
Proof.
  intros Hne Hd Hw. destruct (after_number ws r Hw) as (c & r' & -> & Hc & _).
  unfold fraction. change (is_dot "."%char) with true. cbv iota.
  rewrite (span_stop is_digit fs c r' Hd Hc).
  destruct fs; [contradiction | reflexivity].
Qed.

Lemma fraction_none (ws r : str) :
  forallb is_space ws = true -> fraction (ws ++ "%"%char :: r) = None.
Proof.
  intros Hw. destruct (after_number ws r Hw) as (c & r' & -> & _ & Hc).
  unfold fraction. rewrite Hc. reflexivity.
Qed.

(** The matcher finds what the specification describes, and nothing
    else. *)

Lemma attempt_sound (n : nat) (s g : str) (k : nat) :
  1 <= n <= 3 -> attempt n s = Some (g, k) -> spec_match s g k.
Proof.
  intros Hn. unfold attempt.
  destruct (digits n s) as [[ds r]|] eqn:Hd; [|discriminate].
  destruct (digits_spec _ _ _ _ Hd) as (-> & Hl & Hds).
  assert (Hplain :
            match blanks_percent r with
            | Some k0 => Some (ds, n + k0)
            | None => None
            end = Some (g, k) -> spec_match (ds ++ r) g k).
  { destruct (blanks_percent r) as [k0|] eqn:Hb; [|discriminate].
    destruct (blanks_percent_spec _ _ Hb) as (ws & rr & -> & -> & Hw).
    intros [= <- <-]. exists ws, rr. repeat split; auto; [|lia].
    exists ds, []. rewrite app_nil_r. repeat split; auto; lia. }
  destruct (fraction r) as [[fr r']|] eqn:Hf; [|exact Hplain].
  destruct (blanks_percent r') as [k0|] eqn:Hb; [|exact Hplain].
  clear Hplain.
  destruct (fraction_spec _ _ _ Hf) as (-> & fs & -> & Hne & Hfs).
  destruct (blanks_percent_spec _ _ Hb) as (ws & rr & -> & -> & Hw).
  intros [= <- <-]. exists ws, rr. repeat split; auto.
  - exists ds, ("."%char :: fs). repeat split; auto; try lia.
    right. exists fs. auto.
  - rewrite <- app_assoc. reflexivity.
  - rewrite length_app. simpl. lia.
Qed.

Lemma match_at_sound (s g : str) (n : nat) :
  match_at s = Some (g, n) -> spec_match s g n.
Proof.
  unfold match_at.
  destruct (attempt 3 s) as [res|] eqn:H3.
  { intros [= ->]. apply attempt_sound with (n := 3); [lia | exact H3]. }
  destruct (attempt 2 s) as [res|] eqn:H2.
  { intros [= ->]. apply attempt_sound with (n := 2); [lia | exact H2]. }
  apply attempt_sound with (n := 1); lia.
Qed.

Lemma attempt_exact (ds fr ws r : str) :
  forallb is_digit ds = true ->
  (fr = [] \/
   exists fs, fr = "."%char :: fs /\ fs <> [] /\ forallb is_digit fs = true) ->
  forallb is_space ws = true ->
  attempt (length ds) ((ds ++ fr) ++ ws ++ "%"%char :: r)
  = Some (ds ++ fr, length (ds ++ fr) + length ws + 1).
Proof.
  intros Hds Hfr Hw. unfold attempt.
  rewrite <- app_assoc, (digits_exact ds _ Hds).
  destruct Hfr as [-> | (fs & -> & Hne & Hfs)].
  - simpl app. rewrite (fraction_none ws r Hw), (blanks_percent_exact ws r Hw).
    rewrite app_nil_r. f_equal. f_equal. lia.
  - change (("."%char :: fs) ++ ws ++ "%"%char :: r)
      with ("."%char :: fs ++ ws ++ "%"%char :: r).
    rewrite (fraction_exact fs ws r Hne Hfs Hw), (blanks_percent_exact ws r Hw).
    f_equal. f_equal. rewrite length_app. lia.
Qed.

Lemma attempt_too_many (n : nat) (ds fr ws r : str) :
  length ds < n ->
  (fr = [] \/
   exists fs, fr = "."%char :: fs /\ fs <> [] /\ forallb is_digit fs = true) ->
  forallb is_space ws = true ->
  attempt n ((ds ++ fr) ++ ws ++ "%"%char :: r) = None.
Proof.
  intros Hl Hfr Hw. unfold attempt. rewrite <- app_assoc.
  assert (Hhead : exists c r', fr ++ ws ++ "%"%char :: r = c :: r' /\ is_digit c = false).
  { destruct Hfr as [-> | (fs & -> & _)].
    - destruct (after_number ws r Hw) as (c & r' & E & Hc & _). exists c, r'. auto.
    - exists "."%char, (fs ++ ws ++ "%"%char :: r). auto. }
  destruct Hhead as (c & r' & -> & Hc).
  rewrite (digits_short n ds c r' Hl Hc). reflexivity.
Qed.

Lemma match_at_complete (s g : str) (n : nat) :
  spec_match s g n -> match_at s = Some (g, n).
Proof.
  intros (ws & r & (ds & fr & -> & Hl & Hds & Hfr) & Hw & -> & ->).
  unfold match_at.
  pose proof (attempt_exact ds fr ws r Hds Hfr Hw) as Hok.
  destruct ds as [|d1 [|d2 [|d3 [|d4 ds]]]]; simpl length in Hl, Hok; try lia.
  - rewrite (attempt_too_many 3 [d1] fr ws r), (attempt_too_many 2 [d1] fr ws r);
      simpl; auto.
  - rewrite (attempt_too_many 3 [d1; d2] fr ws r); simpl; auto.
    change (match attempt 2 (([d1; d2] ++ fr) ++ ws ++ "%"%char :: r) with
            | Some res => Some res
            | None => attempt 1 (([d1; d2] ++ fr) ++ ws ++ "%"%char :: r)
            end = Some ([d1; d2] ++ fr, length ([d1; d2] ++ fr) + length ws + 1)).
    rewrite Hok. reflexivity.
  - rewrite Hok. reflexivity.
Qed.

Theorem match_at_iff (s g : str) (n : nat) :
  match_at s = Some (g, n) <-> spec_match s g n.
Proof. split; [apply match_at_sound | apply match_at_complete]. Qed.

End PatternFacts.

(** ** Range filtering of the parsed percentages *)

Section Report.

Import Re.

Lemma span_all (p : ascii -> bool) (a : str) :
  forallb p a = true -> span p a = (a, []).
Proof.
  intros Ha; induction a as [|x a IH]; simpl in *; [reflexivity|].
  apply andb_true_iff in Ha as [Hx Ha]. rewrite Hx, (IH Ha). reflexivity.
Qed.

(** [float] accepts every token of the pattern. *)
Lemma token_parses (g : str) :
  spec_token g -> exists pct, PyFloat.of_str g = Some pct.
Proof.
  intros (ds & fr & -> & Hl & Hds & [-> | (fs & -> & Hne & Hfs)]);
    unfold PyFloat.of_str.
  - rewrite app_nil_r, (span_all _ _ Hds).
    destruct ds; [simpl in Hl; lia | eauto].
  - rewrite (span_stop is_digit ds "."%char fs Hds eq_refl).
    change (is_dot "."%char) with true. rewrite Hfs.
    destruct fs; [contradiction|].
    rewrite andb_false_r. simpl. eauto.
Qed.

Lemma finditer_from_token (s : str) (pos skip : nat) (m : rmatch) :
  In m (finditer_from pos skip s) -> spec_token (group1 m).
Proof.
  revert pos skip; induction s as [|c s IH]; intros pos skip; simpl; [tauto|].
  destruct skip as [|k]; [|apply IH].
  destruct (match_at (c :: s)) as [[g n]|] eqn:Hm; [|apply IH].
  intros [<- | H]; [|exact (IH _ _ H)].
  apply match_at_sound in Hm. destruct Hm as (ws & r & Hg & _). exact Hg.
Qed.

Lemma in_report (ms : list rmatch) (p : float) :
  In p (report ms) <->
  exists m, In m ms /\ PyFloat.of_str (group1 m) = Some p
            /\ PyFloat.between 0 p 100 = true.
Proof.
  unfold report. rewrite in_flat_map. split.
  - intros (m & Hm & Hp). exists m. split; [exact Hm|].
    destruct (PyFloat.of_str (group1 m)) as [q|]; [|contradiction].
    destruct (PyFloat.between 0 q 100) eqn:Hq; [|contradiction].
    destruct Hp as [-> | []]. auto.
  - intros (m & Hm & Hs & Hb). exists m. split; [exact Hm|].
    rewrite Hs, Hb. left; reflexivity.
Qed.

Lemma report_app (a b : list rmatch) : report (a ++ b) = report a ++ report b.
Proof. apply flat_map_app. Qed.

End Report.

Lemma report_length (ms : list Re.rmatch) :
  length (report ms) = length (filter in_range ms).
Proof.
  induction ms as [|m ms IH]; [reflexivity|].
  unfold report in *. simpl. rewrite length_app, IH.
  unfold in_range, PyFloat.between.
  destruct (PyFloat.of_str (Re.group1 m)) as [q|]; [|reflexivity].
  destruct ((0 <=? q) && (q <=? 100))%float; reflexivity.
Qed.

(** ** The scan and the pieces of its input *)

Section Scan.

Import Re.

Lemma app_prefix {A : Type} (u v w r : list A) :
  u ++ v = w ++ r -> length w <= length u -> exists r', u = w ++ r'.
Proof.
  intros E Hl. exists (firstn (length u - length w) r).
  assert (H : firstn (length u) (u ++ v) = firstn (length u) (w ++ r))
    by (rewrite E; reflexivity).
  rewrite !firstn_app, firstn_all, Nat.sub_diag in H.
  rewrite (firstn_all2 w Hl) in H.
  simpl in H. rewrite app_nil_r in H. exact H.
Qed.

Lemma forallb_weaken (p q : ascii -> bool) (s : str) :
  (forall c, p c = true -> q c = true) -> forallb p s = true -> forallb q s = true.
Proof.
  intros Hpq. rewrite !forallb_forall. auto.
Qed.

Lemma token_not_percent (g : str) : spec_token g -> forallb not_percent g = true.
Proof.
  assert (Hd : forall s, forallb is_digit s = true -> forallb not_percent s = true).
  { intros s. apply forallb_weaken. intros c Hc. unfold not_percent.
    rewrite (digit_not_percent c Hc). reflexivity. }
  intros (ds & fr & -> & _ & Hds & [-> | (fs & -> & _ & Hfs)]);
    rewrite forallb_app, (Hd _ Hds); simpl; auto.
Qed.

Lemma blanks_not_percent (ws : str) :
  forallb is_space ws = true -> forallb not_percent ws = true.
Proof.
  apply forallb_weaken. intros c Hc. unfold not_percent.
  rewrite (space_not_percent c Hc). reflexivity.
Qed.

(** A match is decided by the characters it covers. *)

Lemma match_at_app (u v g : str) (n : nat) :
  match_at u = Some (g, n) -> match_at (u ++ v) = Some (g, n).
Proof.
  rewrite !match_at_iff. intros (ws & r & Hg & Hw & -> & ->).
  exists ws, (r ++ v). repeat split; auto.
  rewrite <- !app_assoc. reflexivity.
Qed.

Lemma match_at_prefix (u v g : str) (n : nat) :
  match_at (u ++ v) = Some (g, n) -> n <= length u -> match_at u = Some (g, n).
Proof.
  rewrite !match_at_iff. intros (ws & r & Hg & Hw & E & ->) Hl.
  assert (E' : u ++ v = (g ++ ws ++ ["%"%char]) ++ r)
    by (rewrite E, <- !app_assoc; reflexivity).
  apply app_prefix in E' as [r' ->].
  - exists ws, r'. repeat split; auto. rewrite <- !app_assoc. reflexivity.
  - rewrite !length_app. simpl. lia.
Qed.

(** The characters of a match before its last one hold no percent sign. *)
Lemma match_at_percent_free (u v g : str) (n : nat) :
  match_at (u ++ v) = Some (g, n) -> length u < n -> forallb not_percent u = true.
Proof.
  rewrite match_at_iff. intros (ws & r & Hg & Hw & E & ->) Hl.
  assert (E' : (g ++ ws) ++ "%"%char :: r = u ++ v)
    by (rewrite E, <- !app_assoc; reflexivity).
  apply app_prefix in E' as [x E'].
  - assert (H : forallb not_percent (g ++ ws) = true)
      by (rewrite forallb_app, (token_not_percent g Hg), (blanks_not_percent ws Hw);
          reflexivity).
    rewrite E', forallb_app in H. apply andb_true_iff in H. tauto.
  - rewrite length_app. lia.
Qed.

Lemma percent_free_no_match (u : str) (pos skip : nat) :
  forallb not_percent u = true -> finditer_from pos skip u = [].
Proof.
  revert pos skip; induction u as [|c u IH]; intros pos skip H; [reflexivity|].
  simpl. destruct skip as [|k].
  - destruct (match_at (c :: u)) as [[g n]|] eqn:Hm.
    + exfalso. apply match_at_sound in Hm. destruct Hm as (ws & r & _ & _ & E & _).
      rewrite forallb_forall in H.
      specialize (H "%"%char). rewrite E in H.
      assert (Hin : In "%"%char (g ++ ws ++ "%"%char :: r))
        by (rewrite !in_app_iff; right; right; left; reflexivity).
      specialize (H Hin). discriminate.
    + apply IH. simpl in H. apply andb_true_iff in H. tauto.
  - apply IH. simpl in H. apply andb_true_iff in H. tauto.
Qed.

(** The scan of a prefix is a prefix of the scan. *)
Lemma finditer_prefix (u v : str) (pos skip : nat) :
  exists tail,
    finditer_from pos skip (u ++ v) = finditer_from pos skip u ++ tail.
Proof.
  revert pos skip; induction u as [|c u IH]; intros pos skip.
  - exists (finditer_from pos skip v). reflexivity.
  - simpl. destruct skip as [|k]; [|apply IH].
    destruct (match_at (c :: u)) as [[g n]|] eqn:Hm.
    + change (c :: u ++ v) with ((c :: u) ++ v).
      rewrite (match_at_app (c :: u) v g n Hm).
      destruct (IH (S pos) (n - 1)) as [tail ->]. exists tail. reflexivity.
    + change (c :: u ++ v) with ((c :: u) ++ v).
      destruct (match_at ((c :: u) ++ v)) as [[g n]|] eqn:Hm'; [|apply IH].
      destruct (Nat.le_gt_cases n (length (c :: u))) as [Hl | Hl].
      * rewrite (match_at_prefix (c :: u) v g n Hm' Hl) in Hm. discriminate.
      * pose proof (match_at_percent_free (c :: u) v g n Hm' Hl) as Hfree.
        simpl in Hfree. apply andb_true_iff in Hfree as [_ Hfree].
        rewrite (percent_free_no_match u (S pos) 0 Hfree). eexists. reflexivity.
Qed.

(** Where no match straddles the cut, the scan of the whole is the scan
    of the first part followed by the scan of the second. *)
Lemma finditer_split (u v : str) (pos skip : nat) :
  (forall m, In m (finditer_from pos skip (u ++ v)) ->
             straddles m (pos + length u) = false) ->
  finditer_from pos skip (u ++ v)
  = finditer_from pos skip u ++ finditer_from (pos + length u) (skip - length u) v.
Proof.
  revert pos skip; induction u as [|c u IH]; intros pos skip H.
  - simpl. rewrite Nat.add_0_r, Nat.sub_0_r. reflexivity.
  - simpl in *. rewrite <- Nat.add_succ_comm in *.
    destruct skip as [|k]; [|apply IH; exact H].
    change (c :: u ++ v) with ((c :: u) ++ v) in *.
    destruct (match_at ((c :: u) ++ v)) as [[g n]|] eqn:Hm.
    + assert (Hl : n <= length (c :: u)).
      { specialize (H _ (or_introl eq_refl)). unfold straddles in H.
        cbn [m_start m_end] in H.
        rewrite andb_false_iff, !Nat.ltb_ge in H. simpl. lia. }
      rewrite (match_at_prefix (c :: u) v g n Hm Hl). simpl. f_equal.
      rewrite IH.
      * simpl in Hl. replace (n - 1 - length u) with 0 by lia. reflexivity.
      * intros m Hin. apply H. right; exact Hin.
    + destruct (match_at (c :: u)) as [[g n]|] eqn:Hm'.
      * rewrite (match_at_app (c :: u) v g n Hm') in Hm. discriminate.
      * apply IH. exact H.
Qed.

(** The groups found do not depend on the offset the scan starts from. *)
Lemma finditer_groups (s : str) (pos pos' skip : nat) :
  map group1 (finditer_from pos skip s) = map group1 (finditer_from pos' skip s).
Proof.
  revert pos pos' skip; induction s as [|c s IH]; intros pos pos' skip;
    [reflexivity|].
  simpl. destruct skip as [|k]; [|apply IH].
  destruct (match_at (c :: s)) as [[g n]|]; [|apply IH].
  simpl. f_equal. apply IH.
Qed.

Lemma report_groups (ms ms' : list rmatch) :
  map group1 ms = map group1 ms' -> report ms = report ms'.
Proof.
  revert ms'; induction ms as [|m ms IH]; intros [|m' ms'] E; try discriminate;
    [reflexivity|].
  injection E as E1 E2. unfold report in *. simpl. rewrite E1, (IH ms' E2).
  reflexivity.
Qed.

Lemma report_shift (s : str) (pos skip : nat) :
  report (finditer_from pos skip s) = report (finditer_from 0 skip s).
Proof. apply report_groups, finditer_groups. Qed.

End Scan.

(** ** The order of the matches *)

Section ScanOrder.

Import Re.

Lemma spec_match_length (s g : str) (n : nat) :
  spec_match s g n -> 1 <= n <= length s.
Proof.
  intros (ws & r & _ & _ & -> & ->). rewrite !length_app. simpl. lia.
Qed.

Lemma found_in_cons (pos skip : nat) (c : ascii) (s : str) (m : rmatch) :
  found_in (S pos) skip s m -> found_in pos (S skip) (c :: s) m.
Proof.
  intros (H1 & H2 & H3). repeat split; simpl length; try lia.
  replace (m_start m - pos) with (S (m_start m - S pos)) by lia. exact H3.
Qed.

Lemma found_in_weaken (pos skip skip' : nat) (s : str) (m : rmatch) :
  skip' <= skip -> found_in pos skip s m -> found_in pos skip' s m.
Proof. intros Hs (H1 & H2 & H3). repeat split; auto; lia. Qed.

Lemma finditer_from_found (s : str) :
  forall pos skip,
    Forall (found_in pos skip s) (finditer_from pos skip s)
    /\ StronglySorted (fun a b => m_end a <= m_start b) (finditer_from pos skip s).
Proof.
  induction s as [|c s IH]; intros pos skip; [split; constructor|].
  simpl. destruct skip as [|k].
  - destruct (match_at (c :: s)) as [[g n]|] eqn:Hm.
    + apply match_at_sound in Hm. pose proof (spec_match_length _ _ _ Hm) as Hn.
      simpl length in Hn. destruct (IH (S pos) (n - 1)) as [IHf IHs]. split.
      * constructor.
        -- repeat split; cbn [m_start m_end group1]; simpl length; try lia.
           replace (pos - pos) with 0 by lia.
           replace (pos + n - pos) with n by lia. exact Hm.
        -- eapply Forall_impl; [|exact IHf]. intros m Hf.
           apply (found_in_weaken pos (S (n - 1)) 0); [lia|].
           exact (found_in_cons pos (n - 1) c s m Hf).
      * constructor; [exact IHs|].
        eapply Forall_impl; [|exact IHf]. intros m (H1 & _). cbn [m_end]. lia.
    + destruct (IH (S pos) 0) as [IHf IHs]. split; [|exact IHs].
      eapply Forall_impl; [|exact IHf]. intros m Hf.
      apply (found_in_weaken pos 1 0); [lia|].
      exact (found_in_cons pos 0 c s m Hf).
  - destruct (IH (S pos) k) as [IHf IHs]. split; [|exact IHs].
    eapply Forall_impl; [|exact IHf]. intros m Hf.
    exact (found_in_cons pos k c s m Hf).
Qed.

Lemma finditer_from_covers (s : str) (g : str) (n : nat) :
  forall pos skip i,
    skip <= i ->
    match_at (skipn i s) = Some (g, n) ->
    exists m, In m (finditer_from pos skip s) /\ m_start m <= pos + i < m_end m.
Proof.
  induction s as [|c s IH]; intros pos skip i Hs Hm.
  - rewrite skipn_nil in Hm. discriminate.
  - simpl. destruct skip as [|k].
    + destruct (match_at (c :: s)) as [[g0 n0]|] eqn:Hm0.
      * destruct (Nat.lt_ge_cases i n0) as [Hi | Hi].
        -- eexists. split; [left; reflexivity|]. cbn [m_start m_end]. lia.
        -- pose proof (spec_match_length _ _ _ (match_at_sound _ _ _ Hm0)) as Hn.
           destruct i as [|i]; [lia|]. simpl skipn in Hm.
           destruct (IH (S pos) (n0 - 1) i ltac:(lia) Hm) as (m & Hin & Hc).
           exists m. split; [right; exact Hin | lia].
      * destruct i as [|i]; [simpl in Hm; congruence|]. simpl skipn in Hm.
        destruct (IH (S pos) 0 i ltac:(lia) Hm) as (m & Hin & Hc).
        exists m. split; [exact Hin | lia].
    + destruct i as [|i]; [lia|]. simpl skipn in Hm.
      destruct (IH (S pos) k i ltac:(lia) Hm) as (m & Hin & Hc).
      exists m. split; [exact Hin | lia].
Qed.

End ScanOrder.

(** ** Chunking invariance of the extractor *)

Section Chunking.

Import Re.

Lemma callbacks_map_Callback (ps : list float) : callbacks (map Callback ps) = ps.
Proof.
  induction ps as [|p ps IH]; [reflexivity|].
  unfold callbacks in *. simpl. rewrite IH. reflexivity.
Qed.

Lemma reported_nil (buffer : str) : reported buffer [] = [].
Proof. reflexivity. Qed.

Lemma reported_cons (buffer : str) (c : ascii) (chunk : str) (rest : list str) :
  reported buffer ((c :: chunk) :: rest)
  = report (finditer (buffer ++ c :: chunk))
    ++ reported (truncate (buffer ++ c :: chunk)) rest.
Proof.
  unfold reported. simpl.
  destruct (stream (Some Callback) false (truncate (buffer ++ c :: chunk))
                   (map Chunk rest)) as [tr r].
  simpl. change (callbacks (OutputTail ?t :: ?l)) with (callbacks l).
  rewrite callbacks_app, callbacks_map_Callback. reflexivity.
Qed.

Lemma finditer_from_start (s : str) (pos skip : nat) (m : rmatch) :
  In m (finditer_from pos skip s) -> pos <= m_start m.
Proof.
  revert pos skip; induction s as [|c s IH]; intros pos skip; simpl; [tauto|].
  destruct skip as [|k].
  - destruct (match_at (c :: s)) as [[g n]|].
    + intros [<- | H]; [simpl; lia | apply IH in H; lia].
    + intros H; apply IH in H; lia.
  - intros H; apply IH in H; lia.
Qed.

(** The buffer [b] is the part [b1] that is dropped followed by the part
    that is kept. *)
Lemma truncate_split (b : str) :
  exists b1,
    b = b1 ++ truncate b
    /\ length b1 = (if 128 <? length b then length b - 16 else 0).
Proof.
  unfold truncate, Py.last_n. destruct (128 <? length b) eqn:H.
  - exists (firstn (length b - 16) b). split.
    + symmetry; apply firstn_skipn.
    + apply firstn_length_le. lia.
  - exists []. auto.
Qed.

Section Step.

Variables (buffer chunk b1 tb rest : str) (off : nat) (later : list float).

Hypothesis Hsplit : buffer ++ chunk = b1 ++ tb.
Hypothesis Hcut :
  forall m, In m (finditer_from off 0 ((buffer ++ chunk) ++ rest)) ->
            straddles m (off + length b1) = false.

Lemma whole_scan :
  finditer_from off 0 ((buffer ++ chunk) ++ rest)
  = finditer_from off 0 b1 ++ finditer_from (off + length b1) 0 (tb ++ rest).
Proof.
  pose proof Hcut as H. rewrite Hsplit, <- app_assoc in H |- *.
  rewrite (finditer_split b1 (tb ++ rest) off 0 H). reflexivity.
Qed.

Lemma buffer_scan :
  finditer_from off 0 (buffer ++ chunk)
  = finditer_from off 0 b1 ++ finditer_from (off + length b1) 0 tb.
Proof.
  destruct (finditer_prefix (buffer ++ chunk) rest off 0) as [tail E].
  assert (H : forall m, In m (finditer_from off 0 (buffer ++ chunk)) ->
                        straddles m (off + length b1) = false).
  { intros m Hm. apply Hcut. rewrite E. apply in_or_app. left; exact Hm. }
  rewrite Hsplit in H |- *.
  rewrite (finditer_split b1 tb off 0 H). reflexivity.
Qed.

Hypothesis Hlater :
  forall p, In p (report (finditer tb)) \/ In p later <->
            In p (report (finditer_from (off + length b1) 0 (tb ++ rest))).

Lemma reported_step (p : float) :
  In p (report (finditer buffer))
  \/ In p (report (finditer (buffer ++ chunk)) ++ later)
  <-> In p (report (finditer_from off 0 ((buffer ++ chunk) ++ rest))).
Proof.
  destruct (finditer_prefix buffer chunk 0 0) as [tail0 E0].
  assert (Hb : report (finditer (buffer ++ chunk))
               = report (finditer b1) ++ report (finditer tb)).
  { unfold finditer. rewrite <- (report_shift (buffer ++ chunk) off 0), buffer_scan.
    rewrite report_app, (report_shift b1 off 0),
      (report_shift tb (off + length b1) 0). reflexivity. }
  assert (Hb0 : forall q, In q (report (finditer buffer)) ->
                          In q (report (finditer (buffer ++ chunk)))).
  { intros q Hq. unfold finditer in *. rewrite E0, report_app.
    apply in_or_app. left; exact Hq. }
  specialize (Hlater p). rewrite report_shift in Hlater.
  rewrite whole_scan, report_app, (report_shift b1 off 0),
    (report_shift (tb ++ rest) (off + length b1) 0).
  rewrite !in_app_iff. fold (finditer b1).
  split.
  - intros [H | [H | H]].
    + apply Hb0 in H. rewrite Hb, in_app_iff in H. tauto.
    + rewrite Hb, in_app_iff in H. tauto.
    + tauto.
  - intros [H | H].
    + right; left. rewrite Hb, in_app_iff. tauto.
    + apply Hlater in H as [H | H]; [|tauto].
      right; left. rewrite Hb, in_app_iff. tauto.
Qed.

End Step.

Lemma reported_gen (chunks : list str) :
  forall (buffer : str) (off : nat),
    Forall (fun chunk => chunk <> []) chunks ->
    (forall c m, In c (truncation_points off buffer chunks) ->
                 In m (finditer_from off 0 (buffer ++ concat chunks)) ->
                 straddles m c = false) ->
    forall p,
      In p (report (finditer buffer)) \/ In p (reported buffer chunks)
      <-> In p (report (finditer_from off 0 (buffer ++ concat chunks))).
Proof.
  induction chunks as [|chunk rest IH]; intros buffer off Hne Hcuts p.
  - simpl. rewrite app_nil_r, report_shift. unfold finditer. tauto.
  - inversion Hne as [|? ? Hc Hrest]; subst.
    destruct chunk as [|c chunk]; [contradiction|].
    rewrite reported_cons.
    change (concat ((c :: chunk) :: rest)) with ((c :: chunk) ++ concat rest) in *.
    rewrite app_assoc in *.
    destruct (truncate_split (buffer ++ c :: chunk)) as (b1 & Hb & Hl).
    assert (Hcut : forall m,
               In m (finditer_from off 0 ((buffer ++ c :: chunk) ++ concat rest)) ->
               straddles m (off + length b1) = false).
    { intros m Hm. rewrite Hl.
      destruct (128 <? length (buffer ++ c :: chunk)) eqn:Ht.
      - apply Hcuts.
        + simpl. rewrite Ht. left; reflexivity.
        + exact Hm.
      - apply finditer_from_start in Hm. unfold straddles.
        replace (m_start m <? off + 0) with false; [reflexivity|].
        symmetry; apply Nat.ltb_ge. lia. }
    apply (reported_step buffer (c :: chunk) b1 (truncate (buffer ++ c :: chunk))
                         (concat rest) off _ Hb Hcut).
    apply IH; [exact Hrest|].
    intros c' m Hc' Hm. apply Hcuts.
    + simpl. unfold truncate in Hc'. rewrite Hl in Hc'.
      destruct (128 <? length (buffer ++ c :: chunk)).
      * right; exact Hc'.
      * rewrite Nat.add_0_r in Hc'. exact Hc'.
    + rewrite (whole_scan buffer (c :: chunk) b1 _ (concat rest) off Hb Hcut).
      apply in_or_app. right; exact Hm.
Qed.

End Chunking.

(** ** Scans that start inside the stream *)

Section Resync.

Import Re.

Lemma found (s : str) (pos skip : nat) (m : rmatch) :
  In m (finditer_from pos skip s) -> found_in pos skip s m.
Proof.
  intros H. destruct (finditer_from_found s pos skip) as [Hf _].
  rewrite Forall_forall in Hf. exact (Hf m H).
Qed.

Lemma finditer_from_short (s : str) :
  forall pos skip, length s <= skip -> finditer_from pos skip s = [].
Proof.
  induction s as [|c s IH]; intros pos skip H; [reflexivity|].
  simpl in H. destruct skip as [|k]; [lia|].
  cbn [finditer_from]. apply IH. lia.
Qed.

Lemma skipn_past (x : str) (c : ascii) (r : str) :
  skipn (S (length x)) (x ++ c :: r) = r.
Proof. induction x as [|y x IH]; [reflexivity | exact IH]. Qed.

Lemma skipn_shift (u v : str) (n : nat) :
  length u <= n -> skipn n (u ++ v) = skipn (n - length u) v.
Proof.
  intros H. rewrite skipn_app, (skipn_all2 u H). reflexivity.
Qed.

(** The matches of a scan that end within a prefix of the text are
    matches of the scan of that prefix. *)
Lemma finditer_within (u v : str) :
  forall pos skip m,
    In m (finditer_from pos skip (u ++ v)) -> m_end m <= pos + length u ->
    In m (finditer_from pos skip u).
Proof.
  induction u as [|c u IH]; intros pos skip m Hin He.
  - apply found in Hin. destruct Hin as (H1 & H2 & _). simpl in He. lia.
  - change ((c :: u) ++ v) with (c :: u ++ v) in Hin.
    cbn [finditer_from] in Hin |- *. simpl length in He.
    destruct skip as [|k].
    + destruct (match_at (c :: u ++ v)) as [[g n]|] eqn:Hm.
      * destruct (Nat.le_gt_cases n (length (c :: u))) as [Hl | Hl].
        -- rewrite (match_at_prefix (c :: u) v g n Hm Hl).
           destruct Hin as [<- | Hin]; [left; reflexivity|].
           right. apply (IH (S pos) (n - 1) m Hin). lia.
        -- simpl in Hl.
           destruct Hin as [<- | Hin]; [cbn [m_end] in He; lia|].
           apply (IH (S pos) (n - 1) m) in Hin; [|lia].
           rewrite finditer_from_short in Hin; [contradiction | lia].
      * destruct (match_at (c :: u)) as [[g n]|] eqn:Hm'.
        -- change (c :: u ++ v) with ((c :: u) ++ v) in Hm.
           rewrite (match_at_app (c :: u) v g n Hm') in Hm. discriminate.
        -- apply (IH (S pos) 0 m Hin). lia.
    + apply (IH (S pos) k m Hin). lia.
Qed.

(** A value read from a match does not depend on the offset the scan
    starts from. *)
Lemma finditer_shift_in (s : str) (pos pos' skip : nat) (m : rmatch) :
  In m (finditer_from pos skip s) ->
  exists m', In m' (finditer_from pos' skip s) /\ group1 m' = group1 m.
Proof.
  intros H. apply (in_map group1) in H.
  rewrite (finditer_groups s pos pos' skip) in H.
  apply in_map_iff in H as (m' & E & Hin). exists m'. auto.
Qed.

(** A match holds one percent sign, its last character. *)
Lemma first_percent (a a' b b' : str) :
  forallb not_percent a = true -> forallb not_percent a' = true ->
  a ++ "%"%char :: b = a' ++ "%"%char :: b' -> a = a' /\ b = b'.
Proof.
  revert a'; induction a as [|x a IH]; intros [|x' a'] Ha Ha' E;
    cbn [app forallb] in *.
  - injection E as E. auto.
  - injection E as E1 E2. subst x'. discriminate Ha'.
  - injection E as E1 E2. subst x. discriminate Ha.
  - injection E as E1 E2. subst x'.
    apply andb_true_iff in Ha as [_ Ha]. apply andb_true_iff in Ha' as [_ Ha'].
    destruct (IH a' Ha Ha' E2) as [-> ->]. auto.
Qed.

Lemma match_percent_free (g ws : str) :
  spec_token g -> forallb is_space ws = true ->
  forallb not_percent (g ++ ws) = true.
Proof.
  intros Hg Hw.
  rewrite forallb_app, (token_not_percent g Hg), (blanks_not_percent ws Hw).
  reflexivity.
Qed.

Lemma match_at_first_percent (x r g : str) (n : nat) :
  forallb not_percent x = true ->
  match_at (x ++ "%"%char :: r) = Some (g, n) -> n = S (length x).
Proof.
  intros Hx Hm. apply match_at_sound in Hm.
  destruct Hm as (ws & r' & Hg & Hw & E & ->).
  rewrite app_assoc in E.
  destruct (first_percent x (g ++ ws) r r' Hx (match_percent_free g ws Hg Hw) E)
    as [-> _].
  rewrite length_app. lia.
Qed.

(** Skipping is starting later. *)
Lemma skip_scan (s : str) :
  forall pos skip,
    finditer_from pos skip s = finditer_from (pos + skip) 0 (skipn skip s).
Proof.
  induction s as [|c s IH]; intros pos skip.
  - rewrite skipn_nil. reflexivity.
  - destruct skip as [|k].
    + rewrite Nat.add_0_r. reflexivity.
    + cbn [finditer_from skipn]. rewrite IH, Nat.add_succ_comm. reflexivity.
Qed.

(** The scan of a text up to its first percent sign finds at most a
    match that ends with that sign, and goes on after it. *)
Lemma tail_scan (x r : str) :
  forall q,
    forallb not_percent x = true ->
    exists R,
      finditer_from q 0 (x ++ "%"%char :: r)
      = R ++ finditer_from (q + S (length x)) 0 r
      /\ forall m, In m R ->
           q <= m_start m /\ m_start m < m_end m /\ m_end m = q + S (length x)
           /\ spec_match (skipn (m_start m - q) (x ++ "%"%char :: r))
                         (group1 m) (m_end m - m_start m).
Proof.
  induction x as [|c x IH]; intros q Hx.
  - exists []. split; [|intros m []].
    cbn [app finditer_from length].
    replace (match_at ("%"%char :: r)) with (@None (str * nat)) by reflexivity.
    rewrite Nat.add_1_r. reflexivity.
  - pose proof Hx as Hcx. cbn [forallb] in Hx. apply andb_true_iff in Hx as [Hc Hx].
    change ((c :: x) ++ "%"%char :: r) with (c :: x ++ "%"%char :: r).
    cbn [finditer_from].
    destruct (match_at (c :: x ++ "%"%char :: r)) as [[g n]|] eqn:Hm.
    + pose proof (match_at_first_percent (c :: x) r g n Hcx Hm) as Hn.
      exists [ {| m_start := q; m_end := q + n; group1 := g |} ]. split.
      * cbn [app]. f_equal. rewrite skip_scan. subst n. cbn [length].
        replace (S (S (length x)) - 1) with (S (length x)) by lia.
        rewrite skipn_past. f_equal. lia.
      * intros m [<- | []]. cbn [m_start m_end group1].
        repeat split; try lia.
        replace (q - q) with 0 by lia. replace (q + n - q) with n by lia.
        apply match_at_sound. exact Hm.
    + destruct (IH (S q) Hx) as (R & E & HR). exists R. split.
      * rewrite E. f_equal. f_equal. cbn [length]. lia.
      * intros m Hin. destruct (HR m Hin) as (H1 & H2 & H3 & H4).
        cbn [length]. repeat split; try lia.
        replace (m_start m - q) with (S (m_start m - S q)) by lia. exact H4.
Qed.

(** The scan of a text in two parts: the matches that start in the first
    part, then the scan of the second part, of which the first [k]
    characters are still covered. *)
Lemma scan_split (u v : str) :
  forall pos skip,
    exists A k,
      finditer_from pos skip (u ++ v) = A ++ finditer_from (pos + length u) k v
      /\ (forall m, In m A -> m_start m < pos + length u)
      /\ (k = skip - length u \/ exists m, In m A /\ m_end m = pos + length u + k).
Proof.
  induction u as [|c u IH]; intros pos skip.
  - exists [], skip. cbn [app length]. rewrite Nat.add_0_r, Nat.sub_0_r.
    repeat split; auto. intros m [].
  - change ((c :: u) ++ v) with (c :: u ++ v). cbn [finditer_from length].
    replace (pos + S (length u)) with (S pos + length u) by lia.
    destruct skip as [|k0].
    + destruct (match_at (c :: u ++ v)) as [[g n]|] eqn:Hm.
      * destruct (IH (S pos) (n - 1)) as (A & k & E & HA & Hk).
        exists ({| m_start := pos; m_end := pos + n; group1 := g |} :: A), k.
        rewrite E. split; [reflexivity|]. split.
        -- intros m [<- | Hin]; [cbn [m_start]; lia | exact (HA m Hin)].
        -- destruct Hk as [-> | (m & Hin & He)].
           ++ destruct (Nat.le_gt_cases (length u) (n - 1)).
              ** right. eexists. split; [left; reflexivity|]. cbn [m_end].
                 pose proof (spec_match_length _ _ _ (match_at_sound _ _ _ Hm)).
                 lia.
              ** left. lia.
           ++ right. exists m. split; [right; exact Hin | exact He].
      * destruct (IH (S pos) 0) as (A & k & E & HA & Hk). exists A, k.
        rewrite E. split; [reflexivity|]. split; [exact HA|].
        destruct Hk as [-> | H]; [left; reflexivity | right; exact H].
    + destruct (IH (S pos) k0) as (A & k & E & HA & Hk). exists A, k.
      rewrite E. split; [reflexivity|]. split; [exact HA|].
      destruct Hk as [-> | H]; [left; reflexivity | right; exact H].
Qed.

(** The scan started at a cut agrees with the scan of the whole from the
    end of the match that straddles the cut, if any; before that it finds
    at most a match in the tail of the straddling one. *)
Lemma resync (u v : str) (pos : nat) :
  exists A R W,
    finditer_from pos 0 (u ++ v) = A ++ W
    /\ finditer_from (pos + length u) 0 v = R ++ W
    /\ (forall m, In m A -> m_start m < pos + length u)
    /\ (forall r, In r R ->
          exists a, In a A /\ m_end r = m_end a
            /\ pos + length u <= m_start r /\ m_start r < m_end r
            /\ spec_match (skipn (m_start r - (pos + length u)) v)
                          (group1 r) (m_end r - m_start r)).
Proof.
  destruct (scan_split u v pos 0) as (A & k & E & HA & Hk).
  destruct k as [|k].
  - exists A, [], (finditer_from (pos + length u) 0 v).
    repeat split; auto. intros r [].
  - destruct Hk as [Hk | (a & Hin & He)]; [discriminate Hk|].
    assert (Hfa : found_in pos 0 (u ++ v) a).
    { apply found. rewrite E. apply in_or_app. left; exact Hin. }
    destruct Hfa as (H1 & H2 & H3).
    pose proof (HA a Hin) as Hs.
    rewrite skipn_app in H3.
    replace (m_start a - pos - length u) with 0 in H3 by lia. cbn [skipn] in H3.
    assert (Hl2 : length (skipn (m_start a - pos) u) = pos + length u - m_start a)
      by (rewrite length_skipn; lia).
    destruct H3 as (ws & r0 & Hg & Hw & Htext & Hn).
    pose proof (match_percent_free (group1 a) ws Hg Hw) as Hgw.
    assert (Hpre : exists x, group1 a ++ ws = skipn (m_start a - pos) u ++ x).
    { apply (app_prefix (group1 a ++ ws) ("%"%char :: r0) _ v).
      - rewrite <- app_assoc. symmetry. exact Htext.
      - rewrite length_app. lia. }
    destruct Hpre as [x Hx].
    assert (Hv : v = x ++ "%"%char :: r0).
    { apply (app_inv_head (skipn (m_start a - pos) u)).
      rewrite Htext, app_assoc, Hx, <- app_assoc. reflexivity. }
    assert (Hlx : length x = k).
    { apply (f_equal (@length ascii)) in Hx. rewrite !length_app in Hx. lia. }
    assert (Hfree : forallb not_percent x = true).
    { rewrite Hx, forallb_app in Hgw. apply andb_true_iff in Hgw. tauto. }
    destruct (tail_scan x r0 (pos + length u) Hfree) as (R & ER & HR).
    exists A, R, (finditer_from (pos + length u + S k) 0 r0).
    split; [|split; [|split]].
    + rewrite E, skip_scan, Hv, <- Hlx, skipn_past. reflexivity.
    + rewrite Hv, ER, Hlx. reflexivity.
    + exact HA.
    + intros r Hr. destruct (HR r Hr) as (R1 & R2 & R3 & R4).
      exists a. rewrite Hv. repeat split; auto. lia.
Qed.

(** One turn of the loop: the text is the part that is dropped followed
    by the part that is kept, and a cut, if any, is a truncation point. *)
Lemma truncation_step (off : nat) (buffer chunk : str) (rest : list str) :
  exists b1,
    buffer ++ chunk = b1 ++ truncate (buffer ++ chunk)
    /\ (b1 = [] \/
        (length (truncate (buffer ++ chunk)) = 16
         /\ In (off + length b1) (truncation_points off buffer (chunk :: rest))))
    /\ (forall c,
          In c (truncation_points (off + length b1) (truncate (buffer ++ chunk)) rest) ->
          In c (truncation_points off buffer (chunk :: rest))).
Proof.
  cbn [truncation_points]. unfold truncate, Py.last_n.
  destruct (Nat.ltb_spec 128 (length (buffer ++ chunk))) as [H | H].
  - exists (firstn (length (buffer ++ chunk) - 16) (buffer ++ chunk)).
    rewrite firstn_length_le by lia.
    split; [symmetry; apply firstn_skipn|]. split.
    + right. split; [rewrite length_skipn; lia | left; reflexivity].
    + intros c Hc. right. exact Hc.
  - exists []. cbn [app length]. rewrite Nat.add_0_r. auto.
Qed.

(** Every value handed over is the value of a match of the scan of the
    whole text, or of a match read from the tail of one that a cut
    divides. *)
Lemma reported_sound (chunks : list str) :
  forall (buffer : str) (off : nat),
    Forall (fun chunk => chunk <> []) chunks ->
    forall p,
      In p (reported buffer chunks) ->
      exists m,
        PyFloat.of_str (group1 m) = Some p /\ PyFloat.between 0 p 100 = true
        /\ (In m (finditer_from off 0 (buffer ++ concat chunks))
            \/ remnant off (buffer ++ concat chunks)
                       (truncation_points off buffer chunks)
                       (finditer_from off 0 (buffer ++ concat chunks)) m).
Proof.
  induction chunks as [|chunk rest IH]; intros buffer off Hne p Hp.
  - rewrite reported_nil in Hp. contradiction.
  - inversion Hne as [|? ? Hc Hrest]; subst.
    destruct chunk as [|c0 ch]; [contradiction|].
    rewrite reported_cons in Hp. apply in_app_or in Hp.
    change (concat ((c0 :: ch) :: rest)) with ((c0 :: ch) ++ concat rest).
    rewrite app_assoc.
    destruct Hp as [Hp | Hp].
    + apply in_report in Hp as (m' & Hin & Hv & Hr).
      destruct (finditer_shift_in _ 0 off 0 m' Hin) as (m & Hm & Eg).
      exists m. rewrite Eg. split; [exact Hv|]. split; [exact Hr|]. left.
      destruct (finditer_prefix (buffer ++ c0 :: ch) (concat rest) off 0) as [tl ->].
      apply in_or_app. left; exact Hm.
    + destruct (truncation_step off buffer (c0 :: ch) rest) as (b1 & Hb & Htr & Hsub).
      destruct (IH (truncate (buffer ++ c0 :: ch)) (off + length b1) Hrest p Hp)
        as (m & Hv & Hr & Hm).
      destruct (resync b1 (truncate (buffer ++ c0 :: ch) ++ concat rest) off)
        as (A & R & W & EA & ER & HA & HR).
      assert (Etext : (buffer ++ c0 :: ch) ++ concat rest
                      = b1 ++ truncate (buffer ++ c0 :: ch) ++ concat rest)
        by (rewrite app_assoc, <- Hb; reflexivity).
      assert (Hoff : forall a, In a A -> off <= m_start a).
      { intros a Ha.
        apply (finditer_from_start
                 (b1 ++ truncate (buffer ++ c0 :: ch) ++ concat rest) off 0).
        rewrite EA. apply in_or_app. left; exact Ha. }
      assert (Hcut : forall a, In a A ->
                In (off + length b1)
                   (truncation_points off buffer ((c0 :: ch) :: rest))).
      { intros a Ha. destruct Htr as [-> | [_ H]]; [|exact H].
        pose proof (HA a Ha) as H1. pose proof (Hoff a Ha) as H2.
        cbn [length] in H1. lia. }
      exists m. split; [exact Hv|]. split; [exact Hr|].
      unfold remnant in *. rewrite Etext, EA. rewrite ER in Hm.
      destruct Hm as [Hm | (m0 & c & Hm0 & Hcin & H1 & H2 & H3 & H4 & H5)].
      * apply in_app_or in Hm as [Hm | Hm].
        -- right. destruct (HR m Hm) as (a & Ha & He & Hs1 & Hs2 & Hsm).
           exists a, (off + length b1).
           split; [apply in_or_app; left; exact Ha|].
           split; [exact (Hcut a Ha)|].
           split; [exact (HA a Ha)|].
           split; [exact Hs1|]. split; [exact Hs2|]. split; [exact He|].
           rewrite skipn_shift by lia.
           replace (m_start m - off - length b1)
             with (m_start m - (off + length b1)) by lia.
           exact Hsm.
        -- left. apply in_or_app. right; exact Hm.
      * right.
        assert (Hge : off + length b1 <= m_start m0).
        { apply (finditer_from_start (truncate (buffer ++ c0 :: ch) ++ concat rest)
                                     (off + length b1) 0).
          rewrite ER. exact Hm0. }
        assert (Hsm : spec_match
                        (skipn (m_start m - off)
                               (b1 ++ truncate (buffer ++ c0 :: ch) ++ concat rest))
                        (group1 m) (m_end m - m_start m)).
        { rewrite skipn_shift by lia.
          replace (m_start m - off - length b1)
            with (m_start m - (off + length b1)) by lia.
          exact H5. }
        apply in_app_or in Hm0 as [Hm0 | Hm0].
        -- destruct (HR m0 Hm0) as (a & Ha & He & Hs1 & Hs2 & _).
           pose proof (HA a Ha) as Hsa.
           exists a, c.
           split; [apply in_or_app; left; exact Ha|].
           split; [exact (Hsub c Hcin)|].
           repeat split; try lia. exact Hsm.
        -- exists m0, c.
           split; [apply in_or_app; right; exact Hm0|].
           split; [exact (Hsub c Hcin)|].
           repeat split; try lia. exact Hsm.
Qed.

(** Every match of the scan of the whole text whose value is in range
    is handed over, unless it starts before a cut and ends beyond the 16
    characters that are kept. *)
Lemma reported_complete (chunks : list str) :
  forall (buffer : str) (off : nat),
    Forall (fun chunk => chunk <> []) chunks ->
    forall m p,
      In m (finditer_from off 0 (buffer ++ concat chunks)) ->
      off + length buffer < m_end m ->
      (forall c, In c (truncation_points off buffer chunks) ->
                 ~ (m_start m < c /\ c + 16 < m_end m)) ->
      PyFloat.of_str (group1 m) = Some p -> PyFloat.between 0 p 100 = true ->
      In p (reported buffer chunks).
Proof.
  induction chunks as [|chunk rest IH]; intros buffer off Hne m p Hm He Hex Hv Hr.
  - cbn [concat] in Hm. rewrite app_nil_r in Hm. apply found in Hm.
    destruct Hm as (_ & H2 & _). lia.
  - inversion Hne as [|? ? Hc Hrest]; subst.
    destruct chunk as [|c0 ch]; [contradiction|].
    rewrite reported_cons. apply in_or_app.
    change (concat ((c0 :: ch) :: rest)) with ((c0 :: ch) ++ concat rest) in Hm.
    rewrite app_assoc in Hm.
    destruct (Nat.le_gt_cases (m_end m) (off + length (buffer ++ c0 :: ch)))
      as [Hnow | Hlater].
    + left. apply (finditer_within _ _ off 0 m Hm) in Hnow.
      destruct (finditer_shift_in _ off 0 0 m Hnow) as (m' & Hm' & Eg).
      apply in_report. exists m'. rewrite Eg. auto.
    + right.
      destruct (truncation_step off buffer (c0 :: ch) rest) as (b1 & Hb & Htr & Hsub).
      destruct (resync b1 (truncate (buffer ++ c0 :: ch) ++ concat rest) off)
        as (A & R & W & EA & ER & HA & HR).
      assert (Hlen : length (buffer ++ c0 :: ch)
                     = length b1 + length (truncate (buffer ++ c0 :: ch))).
      { rewrite Hb at 1. apply length_app. }
      pose proof (finditer_from_start _ _ _ _ Hm) as Hstart.
      rewrite Hb, <- app_assoc, EA in Hm.
      apply (IH (truncate (buffer ++ c0 :: ch)) (off + length b1) Hrest m p);
        auto; [| lia].
      rewrite ER. apply in_or_app. right.
      apply in_app_or in Hm as [Hm | Hm]; [|exact Hm].
      exfalso. pose proof (HA m Hm) as Hs.
      destruct Htr as [-> | [H16 Hcut]]; [cbn [length] in Hs; lia|].
      apply (Hex _ Hcut). lia.
Qed.

End Resync.

(** C3.  When the output arrives as the non-empty chunks [chunks], the
    values in [0.0, 100.0] handed to the callback are, as a set, those of
    a single scan of the whole output, except for the tokens that a
    truncation point of the rolling buffer divides.  Every token of the
    single scan whose value is in range is handed over, unless it
    straddles a truncation point and ends beyond the 16 characters that
    are kept.  Every value handed over is a value of the single scan, or
    is read from the kept tail of a token of the single scan that
    straddles a truncation point: from a match of the pattern that starts
    at or after the truncation point and ends where the token ends.  So
    where no token straddles a truncation point the two sets are equal. *)
Theorem chunking_invariance (chunks : list str) :
  Forall (fun chunk => chunk <> []) chunks ->
  (forall m p,
      In m (Re.finditer (concat chunks)) ->
      PyFloat.of_str (Re.group1 m) = Some p -> PyFloat.between 0 p 100 = true ->
      (forall c, In c (truncation_points 0 [] chunks) ->
                 straddles m c = true -> Re.m_end m <= c + 16) ->
      In p (reported [] chunks))
  /\ (forall p,
         In p (reported [] chunks) ->
         In p (report (Re.finditer (concat chunks)))
         \/ exists m0 c k g,
              In m0 (Re.finditer (concat chunks))
              /\ In c (truncation_points 0 [] chunks)
              /\ straddles m0 c = true
              /\ c <= k /\ k < Re.m_end m0
              /\ spec_match (skipn k (concat chunks)) g (Re.m_end m0 - k)
              /\ PyFloat.of_str g = Some p /\ PyFloat.between 0 p 100 = true)
  /\ (no_straddle chunks = true ->
      forall p,
        In p (reported [] chunks) <-> In p (report (Re.finditer (concat chunks)))).
Proof.
  intros Hne. split; [|split].
  - intros m p Hm Hv Hr Hex.
    apply (reported_complete chunks [] 0 Hne m p); auto.
    + destruct (found _ _ _ _ Hm) as (_ & H2 & _). cbn [length]. lia.
    + intros c Hc [H1 H2].
      assert (Hs : straddles m c = true)
        by (unfold straddles; rewrite andb_true_iff, !Nat.ltb_lt; lia).
      specialize (Hex c Hc Hs). lia.
  - intros p Hp.
    destruct (reported_sound chunks [] 0 Hne p Hp)
      as (m & Hv & Hr & [Hm | (m0 & c & Hm0 & Hc & H1 & H2 & H3 & H4 & H5)]).
    + left. apply in_report. exists m. auto.
    + right. exists m0, c, (Re.m_start m), (Re.group1 m).
      rewrite Nat.sub_0_r in H5. rewrite <- H4.
      split; [exact Hm0|]. split; [exact Hc|].
      split; [unfold straddles; rewrite andb_true_iff, !Nat.ltb_lt; lia|].
      auto.
  - intros Hns p.
    pose proof (reported_gen chunks [] 0 Hne) as H. simpl app in H.
    rewrite <- H.
    + simpl. tauto.
    + intros c m Hc Hm. unfold no_straddle in Hns.
      rewrite forallb_forall in Hns. specialize (Hns c Hc).
      rewrite forallb_forall in Hns. specialize (Hns m Hm).
      apply negb_true_iff in Hns. exact Hns.
Qed.

Lemma chunking_invariance_witness :
  Forall (fun chunk => chunk <> []) chunks_by_64
  /\ truncation_points 0 [] chunks_by_64 = [176; 304]
  /\ filter (fun m => existsb (straddles m) [176; 304])
            (Re.finditer (concat chunks_by_64))
     = [ {| Re.m_start := 302; Re.m_end := 307; Re.group1 := py "40.5" |} ]
  /\ (forall m p,
         In m (Re.finditer (concat chunks_by_64)) ->
         PyFloat.of_str (Re.group1 m) = Some p -> PyFloat.between 0 p 100 = true ->
         (forall c, In c (truncation_points 0 [] chunks_by_64) ->
                    straddles m c = true -> Re.m_end m <= c + 16) ->
         In p (reported [] chunks_by_64))
  /\ (forall p,
         In p (reported [] chunks_by_64) ->
         In p (report (Re.finditer (concat chunks_by_64)))
         \/ exists m0 c k g,
              In m0 (Re.finditer (concat chunks_by_64))
              /\ In c (truncation_points 0 [] chunks_by_64)
              /\ straddles m0 c = true
              /\ c <= k /\ k < Re.m_end m0
              /\ spec_match (skipn k (concat chunks_by_64)) g (Re.m_end m0 - k)
              /\ PyFloat.of_str g = Some p /\ PyFloat.between 0 p 100 = true).
Proof.
  assert (Hne : Forall (fun chunk : str => chunk <> []) chunks_by_64)
    by (repeat constructor; discriminate).
  split; [exact Hne|].
  split; [vm_compute; reflexivity|].
  split; [vm_compute; reflexivity|].
  destruct (chunking_invariance chunks_by_64 Hne) as (H1 & H2 & _).
  split; [exact H1 | exact H2].
Defined.

(** The output read 64 characters at a time: the token [40.5%] at the
    offsets 302 to 307 straddles the cut at 304 and lies within the 16
    characters that are kept.  Every value of the single scan is handed
    over, and one more, the 5.0 read from the kept tail [.5%]. *)
Example chunks_by_64_values :
  no_straddle chunks_by_64 = false
  /\ forallb (fun p => existsb (PrimFloat.eqb p) (reported [] chunks_by_64))
             (report (Re.finditer (concat chunks_by_64))) = true
  /\ filter (fun p => negb (existsb (PrimFloat.eqb p)
                                    (report (Re.finditer (concat chunks_by_64)))))
            (reported [] chunks_by_64) = [5%float]
  /\ spec_match (skipn 305 (concat chunks_by_64)) (py "5") 2.
Proof.
  split; [vm_compute; reflexivity|].
  split; [vm_compute; reflexivity|].
  split; [vm_compute; reflexivity|].
  apply match_at_sound. vm_compute. reflexivity.
Qed.

(** Where the cuts fall between two tokens the sets are equal. *)
Example chunks_example_values :
  truncation_points 0 [] chunks_example = [118; 246]
  /\ no_straddle chunks_example = true
  /\ forallb (fun p => existsb (PrimFloat.eqb p) (reported [] chunks_example))
             (report (Re.finditer (concat chunks_example))) = true
  /\ forallb (fun p => existsb (PrimFloat.eqb p)
                               (report (Re.finditer (concat chunks_example))))
             (reported [] chunks_example) = true.
Proof. repeat split; vm_compute; reflexivity. Qed.

(** The exception is needed: when the cut falls inside the token [250%],
    which is out of range, the kept tail [50%] is reported although a
    single scan of the stream reports nothing. *)
Lemma straddling_token_is_misread :
  truncation_points 0 [] chunks_straddling = [113]
  /\ no_straddle chunks_straddling = false
  /\ reported [] chunks_straddling = [50%float]
  /\ report (Re.finditer (concat chunks_straddling)) = [].
Proof. repeat split; vm_compute; reflexivity. Qed.

(** ** Range filtering in the read loop *)

Lemma report_filter (ms : list Re.rmatch) :
  Forall2 (fun m p => PyFloat.of_str (Re.group1 m) = Some p)
          (filter in_range ms) (report ms).
Proof.
  induction ms as [|m ms IH]; [constructor|].
  unfold report in *. simpl. unfold in_range at 1. unfold PyFloat.between at 1.
  destruct (PyFloat.of_str (Re.group1 m)) as [q|] eqn:E; [|exact IH].
  destruct ((0 <=? q) && (q <=? 100))%float; [|exact IH].
  simpl. constructor; assumption.
Qed.

(** C4.  In every turn of the read loop the callback is called once for
    each match of the scan of the buffer whose parsed value lies in
    [0.0, 100.0], in the order of the matches and with that value, and
    for no other match; every match parses as a float.  So the output
    [123.4%], read as [12], [3], [.4%], holds one match, of value 123.4,
    and yields no call, while [50%] read as [5], [0%] yields the call
    50.0; the bounds 0 and 100 are let through and 100.5 is not. *)
Theorem report_in_range :
  (forall (logf : bool) (buffer : str) (c : ascii) (chunk : str)
          (rest : list read_result),
      exists now,
        callbacks (fst (stream (Some Callback) logf buffer
                               (Chunk (c :: chunk) :: rest)))
        = now ++ callbacks (fst (stream (Some Callback) logf
                                        (truncate (buffer ++ c :: chunk)) rest))
        /\ Forall2 (fun m p => PyFloat.of_str (Re.group1 m) = Some p)
                   (filter in_range (Re.finditer (buffer ++ c :: chunk))) now)
  /\ (forall (buffer : str) (m : Re.rmatch),
         In m (Re.finditer buffer) ->
         exists pct, PyFloat.of_str (Re.group1 m) = Some pct)
  /\ Re.finditer (py "123.4%")
     = [ {| Re.m_start := 0; Re.m_end := 6; Re.group1 := py "123.4" |} ]
  /\ PyFloat.of_str (py "123.4") = Some 0x1.ed9999999999ap+6%float
  /\ (100 <? 0x1.ed9999999999ap+6)%float = true
  /\ callbacks (fst (run_chdman (Some (py "chdman")) proc_out_of_range
                                (py "a.cue") (py "a.chd") (Some Callback)
                                (py "createcd"))) = []
  /\ callbacks (fst (run_chdman (Some (py "chdman")) proc_fifty
                                (py "a.cue") (py "a.chd") (Some Callback)
                                (py "createcd"))) = [50%float; 100%float]
  /\ reported [] [py "0%"; py " 100 %"; py " 100.5%"; py " 7.25%"]
     = [0%float; 0%float; 100%float; 0%float; 100%float;
        0%float; 100%float; 7.25%float].
Proof.
  split; [|split; [|repeat split; vm_compute; reflexivity]].
  - intros logf buffer c chunk rest. simpl.
    destruct (stream (Some Callback) logf (truncate (buffer ++ c :: chunk)) rest)
      as [tr r].
    exists (report (Re.finditer (buffer ++ c :: chunk))). split.
    + simpl. change (callbacks (OutputTail ?t :: ?l)) with (callbacks l).
      rewrite !callbacks_app, callbacks_map_Callback.
      destruct logf; reflexivity.
    + apply report_filter.
  - intros buffer m Hm. apply token_parses.
    exact (finditer_from_token buffer 0 0 m Hm).
Qed.


(** ** The progress display *)

Section Clamp.

Local Open Scope Z_scope.

Lemma digits2_pos_bound (m : positive) : Zpos m < 2 ^ Zpos (digits2_pos m).
Proof.
  induction m as [m IH | m IH |]; simpl digits2_pos;
    try rewrite Pos2Z.inj_succ, Z.pow_succ_r by lia; lia.
Qed.

(** The mantissa of a binary64 value has at most 53 bits. *)
Lemma valid_mantissa (s : bool) (m : positive) (e : Z) :
  valid_binary (S754_finite s m e) = true -> Zpos m < 2 ^ 53.
Proof.
  unfold SpecFloat.valid_binary, bounded, canonical_mantissa, fexp.
  intros H. apply andb_true_iff in H as [H _]. apply Z.eqb_eq in H.
  pose proof (digits2_pos_bound m) as Hm.
  assert (Hd : Zpos (digits2_pos m) <= 53) by (unfold prec in H; lia).
  eapply Z.lt_le_trans; [exact Hm|]. apply Z.pow_le_mono_r; lia.
Qed.

Lemma round_half_even_bound (m e bound : Z) :
  0 <= m -> 0 <= bound ->
  (0 <= e -> m * 2 ^ e <= bound) ->
  (e < 0 -> m <= bound * 2 ^ (- e)) ->
  0 <= PyFloat.round_half_even m e <= bound.
Proof.
  intros Hm Hb Hpos Hneg. unfold PyFloat.round_half_even.
  destruct (Z.leb_spec 0 e) as [He | He].
  - specialize (Hpos He). assert (0 < 2 ^ e) by (apply Z.pow_pos_nonneg; lia). nia.
  - specialize (Hneg He). set (d := 2 ^ (- e)) in *.
    assert (Hd : 0 < d) by (apply Z.pow_pos_nonneg; lia).
    pose proof (Z.div_mod m d ltac:(lia)) as E.
    pose proof (Z.mod_pos_bound m d Hd) as Hr.
    assert (Hq : 0 <= m / d) by (apply Z.div_pos; lia).
    assert (Hqb : m / d <= bound) by nia.
    destruct (Z.compare_spec (2 * (m mod d)) d) as [Hc | Hc | Hc];
      try destruct (Z.even (m / d)); try lia; nia.
Qed.

Local Open Scope float_scope.


Lemma Prim2SF_0 : Prim2SF 0 = S754_zero false.
Proof. vm_compute. reflexivity. Qed.

Lemma Prim2SF_100 : Prim2SF 100 = S754_finite false 7036874417766400 (-46).
Proof. vm_compute. reflexivity. Qed.

(** A float strictly between 0.0 and 100.0 is a positive finite number
    below one hundred. *)
Lemma between_0_100 (p : float) :
  (0 <? p) = true -> (p <? 100) = true ->
  exists m e,
    Prim2SF p = S754_finite false m e
    /\ ((0 <= e)%Z -> (Zpos m * 2 ^ e <= 100)%Z)
    /\ ((e < 0)%Z -> (Zpos m <= 100 * 2 ^ (- e))%Z).
Proof.
  rewrite !ltb_spec. intros H0 H100.
  pose proof (Prim2SF_valid p) as Hv.
  rewrite Prim2SF_0 in H0. rewrite Prim2SF_100 in H100.
  unfold SFltb in *.
  destruct (Prim2SF p) as [s | s | | s m e]; cbn [SFcompare] in H0, H100;
    try discriminate.
  - destruct s; discriminate.
  - destruct s; [discriminate|]. exists m, e. split; [reflexivity|].
    apply valid_mantissa in Hv.
    assert (E46 : (2 ^ 46)%Z = 70368744177664%Z) by (vm_compute; reflexivity).
    assert (E47 : (2 ^ 47)%Z = 140737488355328%Z) by (vm_compute; reflexivity).
    assert (E53 : (2 ^ 53)%Z = 9007199254740992%Z) by (vm_compute; reflexivity).
    destruct (Z.compare_spec e (-46)) as [-> | He | He]; try discriminate.
    + split; [lia|]. intros _.
      rewrite Pos.compare_cont_spec in H100.
      destruct (Pos.compare_spec m 7036874417766400) as [| Hlt |];
        try discriminate.
      apply Pos2Z.pos_lt_pos in Hlt.
      change (- -46)%Z with 46%Z. rewrite E46. lia.
    + split; [lia|]. intros _.
      assert (2 ^ 47 <= 2 ^ (- e))%Z by (apply Z.pow_le_mono_r; lia).
      rewrite E47 in *. rewrite E53 in *. lia.
Qed.

Lemma clamp_cases (p : float) :
  clamp p = 0 \/ clamp p = 100
  \/ (clamp p = p /\ (0 <? p) = true /\ (p <? 100) = true).
Proof.
  unfold clamp, PyFloat.max, PyFloat.min.
  destruct (p <? 100) eqn:H100.
  - destruct (0 <? p) eqn:H0; auto.
  - right; left. vm_compute. reflexivity.
Qed.


(** ... and so does what is derived from it by rounding. *)
Lemma clamp_nearest (scale : positive) (p : float) :
  exists t, PyFloat.nearest scale (clamp p) = Some (false, t)
            /\ (0 <= t <= 100 * Zpos scale)%Z.
Proof.
  destruct (clamp_cases p) as [-> | [-> | (-> & H0 & H100)]].
  - exists 0%Z. unfold PyFloat.nearest. rewrite Prim2SF_0.
    split; [reflexivity | lia].
  - unfold PyFloat.nearest. rewrite Prim2SF_100.
    eexists. split; [reflexivity|].
    apply round_half_even_bound; lia.
  - destruct (between_0_100 p H0 H100) as (m & e & E & Hpos & Hneg).
    unfold PyFloat.nearest. rewrite E. eexists. split; [reflexivity|].
    apply round_half_even_bound; try lia.
    + intros He. specialize (Hpos He).
      assert (0 < 2 ^ e)%Z by (apply Z.pow_pos_nonneg; lia). nia.
    + intros He. specialize (Hneg He).
      assert (0 < 2 ^ (- e))%Z by (apply Z.pow_pos_nonneg; lia). nia.
Qed.

End Clamp.

Lemma display_snoc (ps : list float) (p : float) (u : ui) :
  display (ps ++ [p]) u = set_progress p (display ps u).
Proof. unfold display. rewrite fold_left_app. reflexivity. Qed.

Lemma set_progress_applies (p : float) (u : ui) :
  exists v t,
    PyFloat.round (clamp p) = Some v /\ (0 <= v <= 100)%Z
    /\ PyFloat.nearest 10 (clamp p) = Some (false, t) /\ (0 <= t <= 1000)%Z
    /\ set_progress p u
       = {| status_var := status_var u;
            progress_bar_value := v;
            percent_var :=
              (PyFloat.str_of_Z (t / 10) ++ py "." ++ PyFloat.str_of_Z (t mod 10))
                ++ py "%";
            output_tail_var := output_tail_var u |}.
Proof.
  destruct (clamp_nearest 1 p) as (v & Hv & Hvb).
  destruct (clamp_nearest 10 p) as (t & Ht & Htb).
  exists v, t. unfold set_progress, PyFloat.round, PyFloat.format_1f.
  rewrite Hv, Ht. repeat split; lia.
Qed.


(** Values far outside the range, an infinity and a NaN. *)
Example set_progress_examples :
  map (fun p => let u := set_progress p ui_init in
                (progress_bar_value u, percent_var u))
      [0; 50.5; 100; 250; -3; infinity; neg_infinity; nan]%float
  = [ (0%Z, py "0.0%"); (50%Z, py "50.5%"); (100%Z, py "100.0%");
      (100%Z, py "100.0%"); (0%Z, py "0.0%"); (100%Z, py "100.0%");
      (0%Z, py "0.0%"); (100%Z, py "100.0%") ].
Proof. vm_compute. reflexivity. Qed.

(** ** The batch *)

Section Batch.

Variables (os : os_lib) (CHDMAN_PATH : option str) (procs : nat -> process).
Variable system : str.

Local Abbreviation job := (job os CHDMAN_PATH procs system).
Local Abbreviation job_succeeds := (job_succeeds os CHDMAN_PATH procs system).
Local Abbreviation job_events := (job_events os CHDMAN_PATH procs system).
Local Abbreviation successes := (successes os CHDMAN_PATH procs system).

Lemma successes_le (start : nat) (files : list str) :
  successes start files <= length files.
Proof.
  unfold successes, enumerate.
  eapply Nat.le_trans; [apply filter_length_le|].
  rewrite length_combine, length_seq. lia.
Qed.

Lemma enumerate_cons (start : nat) (f : str) (files : list str) :
  enumerate start (f :: files) = (start, f) :: enumerate (S start) files.
Proof. reflexivity. Qed.

Lemma successes_cons (start : nat) (f : str) (files : list str) :
  successes start (f :: files)
  = (if job_succeeds (start, f) then 1 else 0) + successes (S start) files.
Proof.
  unfold successes. rewrite enumerate_cons. simpl filter.
  destruct (job_succeeds (start, f)); reflexivity.
Qed.

Lemma convert_loop_cons (total idx success fail : nat) (f : str) (files : list str) :
  convert_loop os CHDMAN_PATH procs system total idx success fail (f :: files)
  = match job idx f with
    | (tr, Raise e) =>
        ([SetStatus (converting_message os idx total f); SetProgress 0] ++ tr, Raise e)
    | (tr, Return ok) =>
        let (tr', r) :=
          convert_loop os CHDMAN_PATH procs system total (S idx)
                       (if ok then S success else success)
                       (if ok then fail else S fail) files in
        ([SetStatus (converting_message os idx total f); SetProgress 0] ++ tr ++ tr', r)
    end.
Proof. reflexivity. Qed.

Lemma convert_loop_spec (files : list str) :
  forall total idx success fail,
    convert_loop os CHDMAN_PATH procs system total idx success fail files
    = (flat_map (job_events total) (enumerate idx files),
       Return (success + successes idx files,
               fail + (length files - successes idx files))).
Proof.
  induction files as [|f files IH]; intros total idx success fail.
  - simpl. rewrite !Nat.add_0_r. reflexivity.
  - pose proof (successes_le (S idx) files) as Hle.
    rewrite convert_loop_cons, successes_cons, enumerate_cons.
    cbn [flat_map]. unfold job_events at 1, job_succeeds. cbn [fst snd].
    assert (Hok : exists ok, snd (job idx f) = Return ok)
      by (unfold job; apply run_chdman_returns).
    destruct Hok as [ok Hok].
    destruct (job idx f) as [tr r]. cbn [fst snd] in *. subst r.
    rewrite IH. rewrite <- !app_assoc.
    destruct ok; cbn [length];
      (apply f_equal2; [reflexivity | apply f_equal; apply f_equal2; lia]).
Qed.

End Batch.

Lemma decimal_value_str_of_nat (n : nat) : decimal_value (str_of_nat n) = Some n.
Proof.
  unfold decimal_value, str_of_nat, Py.lit.
  rewrite string_of_list_ascii_of_string.
  rewrite NilZero.usu.
  - simpl. rewrite DecimalNat.Unsigned.of_to. reflexivity.
  - intros E. pose proof (f_equal Nat.of_uint E) as E'.
    rewrite DecimalNat.Unsigned.of_to in E'. simpl in E'. subst n.
    discriminate E.
Qed.

Lemma summary_message_spec (system : str) (converted failed : nat) :
  spec_summary system converted failed (summary_message system converted failed).
Proof.
  exists (str_of_nat converted), (str_of_nat failed).
  rewrite !decimal_value_str_of_nat. auto.
Qed.

(** C5.  [convert_files] handles the files one after the other in the
    order given: for each file the status line, the reset of the progress
    to 0, then its conversion; then the idle status and the completion
    dialog, whose text is the system, [Converted: ] followed by the
    number K of files whose conversion returned [True], and [Failed: ]
    followed by N-K.  A batch of three files of which the second fails
    ends with the text [Converted: 2], [Failed: 1]. *)
Theorem convert_files_summary
        (os : os_lib) (CHDMAN_PATH : option str) (procs : nat -> process)
        (files : list str) (system : str) :
  let n := length files in
  let k := successes os CHDMAN_PATH procs system 1 files in
  k <= n
  /\ (exists message,
         spec_summary system k (n - k) message
         /\ convert_files os CHDMAN_PATH procs files system
            = (flat_map (job_events os CHDMAN_PATH procs system n) (enumerate 1 files)
                 ++ [SetStatus (py "Idle"); SetProgress 0; SetPercentVar [];
                     ShowInfo (py "Batch Complete") message],
               Return tt))
  /\ (forall u, progress_bar_value (set_progress 0 u) = 0%Z
                /\ percent_var (set_progress 0 u) = py "0.0%")
  /\ last (fst (convert_files os_example (Some (py "chdman"))
                              (fun idx => if idx =? 2 then proc_failing else proc_fifty)
                              [py "a.cue"; py "b.iso"; py "c.gdi"]
                              (py "Sony PlayStation 2 (PS2)")))
          ThreadStart
     = ShowInfo (py "Batch Complete")
                (py "Sony PlayStation 2 (PS2)" ++ [newline] ++ py "Converted: 2"
                    ++ [newline] ++ py "Failed: 1").
Proof.
  intros n k. split; [apply successes_le|]. split; [|split].
  - exists (summary_message system k (n - k)). split; [apply summary_message_spec|].
    unfold convert_files. rewrite convert_loop_spec. reflexivity.
  - intros u. split; vm_compute; reflexivity.
  - vm_compute. reflexivity.
Qed.

(** A batch of three files of which the second fails. *)
Example convert_files_example :
  let run :=
    convert_files os_example (Some (py "chdman"))
                  (fun idx => if idx =? 2 then proc_failing else proc_fifty)
                  [py "a.cue"; py "b.iso"; py "c.gdi"] (py "Sony PlayStation 2 (PS2)") in
  snd run = Return tt
  /\ last (fst run) ThreadStart
     = ShowInfo (py "Batch Complete")
                (summary_message (py "Sony PlayStation 2 (PS2)") 2 1)
  /\ filter (fun e => match e with Popen _ | SetProgress _ => true | _ => false end)
            (fst run)
     = [ SetProgress 0;
         Popen [py "chdman"; py "createcd"; py "-i"; py "a.cue"; py "-o"; py "a.chd"];
         SetProgress 50; SetProgress 100;
         SetProgress 0;
         Popen [py "chdman"; py "createdvd"; py "-i"; py "b.iso"; py "-o"; py "b.chd"];
         SetProgress 0;
         Popen [py "chdman"; py "createcd"; py "-i"; py "c.gdi"; py "-o"; py "c.chd"];
         SetProgress 50; SetProgress 100;
         SetProgress 0 ].
Proof. repeat split; vm_compute; reflexivity. Qed.

(** ** The folder selection *)

(** C9.  When a folder was chosen and none of the extensions of the
    profile matches a file in it, [select_batch] shows the warning and
    does nothing else: no worker thread is started and no process is
    launched. *)
Theorem select_batch_no_files
        (os : os_lib) (CHDMAN_PATH : option str) (procs : nat -> process)
        (system folder : str) :
  folder <> [] ->
  (forall e, In e (snd (build_filetypes system)) ->
             glob os (join os folder (py "*" ++ e)) = []) ->
  let tr := select_batch os CHDMAN_PATH procs system folder in
  tr = [ShowWarning (py "No files") (py "No .cue/.gdi/.iso files found.")]
  /\ ~ In ThreadStart tr
  /\ (forall argv, ~ In (Popen argv) tr).
Proof.
  intros Hfolder Hglob.
  assert (E : select_batch os CHDMAN_PATH procs system folder
              = [ShowWarning (py "No files") (py "No .cue/.gdi/.iso files found.")]).
  { unfold select_batch. destruct folder as [|c folder']; [contradiction|].
    set (exts := snd (build_filetypes system)) in *.
    assert (Hnone : flat_map (fun e => glob os (join os (c :: folder') (py "*" ++ e))) exts
                    = []).
    { clearbody exts. induction exts as [|e exts IH]; [reflexivity|].
      cbn [flat_map]. rewrite (Hglob e (or_introl eq_refl)). apply IH.
      intros e' He'. apply Hglob. right; exact He'. }
    rewrite Hnone. reflexivity. }
  simpl. rewrite E. split; [reflexivity|]. split.
  - intros [H | []]; discriminate.
  - intros argv [H | []]; discriminate.
Qed.

Lemma select_batch_no_files_witness :
  (py "/roms" <> []
   /\ forall e, In e (snd (build_filetypes (py "Sega Dreamcast"))) ->
                glob os_example (join os_example (py "/roms") (py "*" ++ e)) = [])
  /\ select_batch os_example (Some (py "chdman")) (fun _ => proc_fifty)
                  (py "Sega Dreamcast") (py "/roms")
     = [ShowWarning (py "No files") (py "No .cue/.gdi/.iso files found.")].
Proof.
  assert (H1 : py "/roms" <> []) by discriminate.
  assert (H2 : forall e, In e (snd (build_filetypes (py "Sega Dreamcast"))) ->
                         glob os_example (join os_example (py "/roms") (py "*" ++ e)) = [])
    by (intros; reflexivity).
  split; [split; assumption|].
  exact (proj1 (select_batch_no_files os_example (Some (py "chdman"))
                  (fun _ => proc_fifty) (py "Sega Dreamcast") (py "/roms") H1 H2)).
Defined.

(* ================================================================== *)
(** * Part III.  Further properties                                      *)
(* ================================================================== *)

(** ** Sub-command choice and file types *)

Lemma in_by_eqb (x : str) (l : list str) :
  existsb (Py.eqb x) l = true -> In x l.
Proof.
  intros H. apply existsb_exists in H as (y & Hy & E).
  apply eqb_eq in E. subst y. exact Hy.
Qed.

Lemma lower_char_idempotent (c : ascii) :
  Py.lower_char (Py.lower_char c) = Py.lower_char c.
Proof. destruct c as [[] [] [] [] [] [] [] []]; vm_compute; reflexivity. Qed.

Lemma lower_idempotent (s : str) : Py.lower (Py.lower s) = Py.lower s.
Proof.
  unfold Py.lower. rewrite map_map. apply map_ext. apply lower_char_idempotent.
Qed.

(** X1.  The choice does not depend on the letter case of the path: the
    path and its lower-cased form select the same sub-command. *)
Theorem choose_subcommand_ignores_case (system input_path : str) :
  choose_subcommand system (Py.lower input_path)
  = choose_subcommand system input_path.
Proof. unfold choose_subcommand. rewrite lower_idempotent. reflexivity. Qed.

Lemma same_length_suffix {A : Type} (pre pre' x y : list A) :
  pre ++ x = pre' ++ y -> length x = length y -> x = y.
Proof.
  intros E Hl.
  assert (Hp : length pre = length pre').
  { apply (f_equal (@length A)) in E. rewrite !length_app in E. lia. }
  apply (f_equal (skipn (length pre))) in E.
  rewrite skipn_app, skipn_all, Nat.sub_diag in E. simpl in E.
  rewrite Hp, skipn_app, skipn_all, Nat.sub_diag in E. exact E.
Qed.

(** X2.  A path that ends in [.cue], [.gdi] or [.cdi], in any letter
    case, selects [createcd] for every system, PlayStation 2 included. *)
Theorem choose_subcommand_cd_extensions (system input_path ext : str) :
  In ext [py ".cue"; py ".gdi"; py ".cdi"] ->
  Py.endswith (Py.lower input_path) ext = true ->
  choose_subcommand system input_path = py "createcd".
Proof.
  intros Hext Hend. unfold choose_subcommand.
  destruct (Py.endswith (Py.lower input_path) (py ".iso")) eqn:Hiso;
    [|rewrite andb_false_r; reflexivity].
  exfalso. apply endswith_spec in Hend as [pre E], Hiso as [pre' E'].
  rewrite E in E'.
  assert (Hl : length ext = length (py ".iso"))
    by (destruct Hext as [<- | [<- | [<- | []]]]; reflexivity).
  pose proof (same_length_suffix pre pre' ext (py ".iso") E' Hl) as ->.
  destruct Hext as [H | [H | [H | []]]]; discriminate.
Qed.

Lemma choose_subcommand_cd_extensions_witness :
  (In (py ".cue") [py ".cue"; py ".gdi"; py ".cdi"]
   /\ Py.endswith (Py.lower (py "Game.CUE")) (py ".cue") = true)
  /\ choose_subcommand (py "Sony PlayStation 2 (PS2)") (py "Game.CUE") = py "createcd".
Proof.
  split; [split; [left; reflexivity | reflexivity]|].
  apply (choose_subcommand_cd_extensions (py "Sony PlayStation 2 (PS2)")
           (py "Game.CUE") (py ".cue")); [left; reflexivity | reflexivity].
Defined.

(** X3.  Of the systems of the drop-down list only the PlayStation 2
    entry ever selects [createdvd], and it does so exactly for the paths
    that end in [.iso]. *)
Theorem createdvd_only_for_ps2_entry (system input_path : str) :
  In system SYSTEMS ->
  (choose_subcommand system input_path = py "createdvd"
   <-> system = py "Sony PlayStation 2 (PS2)"
       /\ Py.endswith (Py.lower input_path) (py ".iso") = true).
Proof.
  intros Hin. unfold choose_subcommand.
  destruct (Py.endswith (Py.lower input_path) (py ".iso")).
  - simpl in Hin.
    repeat (destruct Hin as [<- | Hin];
            [vm_compute; split; [try discriminate; auto | intros [H _]; try discriminate H; reflexivity]|]).
    contradiction.
  - rewrite andb_false_r. split; [discriminate | intros [_ H]; discriminate].
Qed.

Lemma createdvd_only_for_ps2_entry_witness :
  In (py "Sega Saturn") SYSTEMS
  /\ (choose_subcommand (py "Sega Saturn") (py "disc.iso") = py "createdvd"
      <-> py "Sega Saturn" = py "Sony PlayStation 2 (PS2)"
          /\ Py.endswith (Py.lower (py "disc.iso")) (py ".iso") = true).
Proof.
  assert (H : In (py "Sega Saturn") SYSTEMS) by (apply in_by_eqb; reflexivity).
  split; [exact H|].
  exact (createdvd_only_for_ps2_entry (py "Sega Saturn") (py "disc.iso") H).
Defined.

Lemma dict_get_cases {V : Type} (d : list (str * V)) (key : str) (default : V) :
  (dict_has d key = false /\ dict_get d key default = default)
  \/ (dict_has d key = true /\ In (key, dict_get d key default) d).
Proof.
  induction d as [|[k v] d IH]; simpl; [left; auto|].
  destruct (Py.eqb k key) eqn:E.
  - right. apply eqb_eq in E. subst k. auto.
  - simpl. destruct IH as [[H1 H2] | [H1 H2]]; [left | right]; auto.
Qed.

(** X4.  Whatever the system string, the extensions of its profile hold
    [.cue] and [.iso], and every one of them is among the four extensions
    a drop accepts. *)
Theorem build_filetypes_extensions (system : str) :
  let exts := snd (build_filetypes system) in
  In (py ".cue") exts /\ In (py ".iso") exts
  /\ forall e, In e exts -> In e DROP_EXTENSIONS.
Proof.
  cbv zeta. unfold build_filetypes. cbn [snd].
  set (default := [py ".cue"; py ".gdi"; py ".iso"]).
  assert (Htable : forallb (fun kv : str * list str => extensions_ok (snd kv))
                           ((py "", default) :: SYSTEM_FILETYPES) = true)
    by (vm_compute; reflexivity).
  assert (Hone : exists key,
             In (key, dict_get SYSTEM_FILETYPES system default)
                ((py "", default) :: SYSTEM_FILETYPES)).
  { destruct (dict_get_cases SYSTEM_FILETYPES system default) as [[_ ->] | [_ H]].
    - exists (py ""). left; reflexivity.
    - exists system. right; exact H. }
  destruct Hone as [key Hkey]. rewrite forallb_forall in Htable.
  specialize (Htable _ Hkey). cbn [snd] in Htable. unfold extensions_ok in Htable.
  apply andb_true_iff in Htable as [Htable Hall].
  apply andb_true_iff in Htable as [Hcue Hiso].
  split; [apply in_by_eqb; exact Hcue|]. split; [apply in_by_eqb; exact Hiso|].
  intros e He. rewrite forallb_forall in Hall. apply in_by_eqb. exact (Hall e He).
Qed.

(** X5.  A system that is no key of [SYSTEM_FILETYPES] gets the default
    extensions [.cue], [.gdi], [.iso] and the pattern string made of them;
    the drop-down entry [SNK Neo Geo CD] is such a system. *)
Theorem build_filetypes_unknown_system (system : str) :
  dict_has SYSTEM_FILETYPES system = false ->
  build_filetypes system
  = ([(py "Disc files", py "*.cue *.gdi *.iso"); (py "All files", py "*.*")],
     [py ".cue"; py ".gdi"; py ".iso"]).
Proof.
  intros H. unfold build_filetypes.
  destruct (dict_get_cases SYSTEM_FILETYPES system [py ".cue"; py ".gdi"; py ".iso"])
    as [[_ ->] | [H' _]]; [vm_compute; reflexivity | congruence].
Qed.

Lemma build_filetypes_unknown_system_witness :
  (In (py "SNK Neo Geo CD") SYSTEMS
   /\ dict_has SYSTEM_FILETYPES (py "SNK Neo Geo CD") = false)
  /\ build_filetypes (py "SNK Neo Geo CD")
     = ([(py "Disc files", py "*.cue *.gdi *.iso"); (py "All files", py "*.*")],
        [py ".cue"; py ".gdi"; py ".iso"]).
Proof.
  split; [split; [apply in_by_eqb; reflexivity | reflexivity]|].
  apply (build_filetypes_unknown_system (py "SNK Neo Geo CD")). reflexivity.
Defined.

(** ** [run_chdman]: what a run launches, logs and shows *)

Section Traces.

Variable k : callback_kind.

(** The calls of the callback leave nothing but callback events. *)
Lemma calls_quiet (ps : list float) :
  let calls := match callback_of k with
               | Some cb => map cb ps
               | None => []
               end in
  launches calls = [] /\ log_writes calls = [] /\ tails calls = []
  /\ error_alerts calls = 0.
Proof.
  destruct k; simpl; auto; induction ps as [|p ps IH]; simpl; auto.
Qed.

Lemma launches_app (a b : list event) : launches (a ++ b) = launches a ++ launches b.
Proof. apply flat_map_app. Qed.


Lemma tails_app (a b : list event) : tails (a ++ b) = tails a ++ tails b.
Proof. apply flat_map_app. Qed.

Lemma error_alerts_app (a b : list event) :
  error_alerts (a ++ b) = error_alerts a + error_alerts b.
Proof. unfold error_alerts. rewrite filter_app, length_app. reflexivity. Qed.

(** One turn of the loop, for a chunk that is not empty. *)
Lemma stream_cons (logf : bool) (buffer : str) (c : ascii) (chunk : str)
      (rest : list read_result) :
  stream (callback_of k) logf buffer (Chunk (c :: chunk) :: rest)
  = (OutputTail
       (Py.replace_char newline space
          (Py.replace_char carriage_return space
             (Py.last_n 80 (buffer ++ c :: chunk))))
       :: (if logf then [LogWrite (c :: chunk)] else [])
       ++ match callback_of k with
          | Some cb => map cb (report (Re.finditer (buffer ++ c :: chunk)))
          | None => []
          end
       ++ fst (stream (callback_of k) logf (truncate (buffer ++ c :: chunk)) rest),
     snd (stream (callback_of k) logf (truncate (buffer ++ c :: chunk)) rest)).
Proof.
  simpl. destruct (stream (callback_of k) logf (truncate (buffer ++ c :: chunk)) rest).
  reflexivity.
Qed.

Lemma stream_launches (logf : bool) (rs : list read_result) (buffer : str) :
  launches (fst (stream (callback_of k) logf buffer rs)) = []
  /\ error_alerts (fst (stream (callback_of k) logf buffer rs)) = 0.
Proof.
  revert buffer; induction rs as [|r rs IH]; intros buffer; [auto|].
  destruct r as [[|c chunk] | e]; [auto | | auto].
  rewrite stream_cons. cbn [fst].
  destruct (calls_quiet (report (Re.finditer (buffer ++ c :: chunk))))
    as (Hl & _ & _ & He).
  destruct (IH (truncate (buffer ++ c :: chunk))) as [IHl IHe].
  change (OutputTail ?t :: ?l) with ([OutputTail t] ++ l).
  rewrite !launches_app, !error_alerts_app, Hl, He, IHl, IHe.
  destruct logf; auto.
Qed.


Lemma tail_is_ok (buffer : str) :
  tail_ok (Py.replace_char newline space
             (Py.replace_char carriage_return space (Py.last_n 80 buffer))) = true.
Proof.
  unfold tail_ok, Py.replace_char. rewrite !length_map. apply andb_true_iff. split.
  - unfold Py.last_n. rewrite length_skipn. apply Nat.leb_le. lia.
  - rewrite map_map. apply forallb_forall. intros c Hc.
    apply in_map_iff in Hc as (x & <- & _).
    destruct (Ascii.eqb x carriage_return) eqn:E1.
    + reflexivity.
    + destruct (Ascii.eqb x newline) eqn:E2; [reflexivity|].
      rewrite E1, E2. reflexivity.
Qed.

Lemma stream_tails (logf : bool) (rs : list read_result) (buffer : str) :
  forallb tail_ok (tails (fst (stream (callback_of k) logf buffer rs))) = true.
Proof.
  revert buffer; induction rs as [|r rs IH]; intros buffer; [reflexivity|].
  destruct r as [[|c chunk] | e]; try reflexivity.
  rewrite stream_cons. cbn [fst].
  destruct (calls_quiet (report (Re.finditer (buffer ++ c :: chunk))))
    as (_ & _ & Ht & _).
  change (OutputTail ?t :: ?l) with ([OutputTail t] ++ l).
  rewrite !tails_app, Ht, !forallb_app, (IH (truncate (buffer ++ c :: chunk))).
  cbn [tails flat_map app forallb]. rewrite tail_is_ok.
  destruct logf; reflexivity.
Qed.

(** The trace of the [try] block: the launch, then the loop, then the
    final callback if there is one. *)
Lemma run_chdman_try_trace (tool : str) (proc : process)
      (input_file output_file subcommand : str) :
  exists final,
    fst (run_chdman_try tool proc input_file output_file (callback_of k) subcommand)
    = Popen [tool; subcommand; py "-i"; input_file; py "-o"; output_file]
        :: match popen_raises proc with
           | Some _ => []
           | None => fst (stream (callback_of k) (log_opens proc) [] (reads proc))
                       ++ final
           end
    /\ launches final = [] /\ log_writes final = [] /\ tails final = []
    /\ error_alerts final = 0.
Proof.
  unfold run_chdman_try. destruct (popen_raises proc) as [e|].
  - exists []. auto.
  - destruct (stream (callback_of k) (log_opens proc) [] (reads proc)) as [tr [u|e]].
    + destruct (wait_result proc) as [rc|e].
      * eexists. split; [reflexivity|].
        destruct k; simpl; auto; destruct (rc =? 0)%Z; auto.
      * exists []. rewrite app_nil_r. auto.
    + exists []. rewrite app_nil_r. auto.
Qed.

(** The trace of [run_chdman] when the tool was found. *)
Lemma run_chdman_trace (CHDMAN_PATH : option str) (tool : str) (proc : process)
      (input_file output_file subcommand : str) :
  CHDMAN_PATH = Some tool -> truthy CHDMAN_PATH = true ->
  fst (run_chdman CHDMAN_PATH proc input_file output_file (callback_of k) subcommand)
  = fst (run_chdman_try tool proc input_file output_file (callback_of k) subcommand).
Proof.
  intros -> H. unfold run_chdman. rewrite H.
  destruct (run_chdman_try tool proc input_file output_file (callback_of k) subcommand)
    as [tr [b|e]]; reflexivity.
Qed.

Lemma run_chdman_missing (CHDMAN_PATH : option str) (proc : process)
      (input_file output_file subcommand : str) :
  truthy CHDMAN_PATH = false ->
  run_chdman CHDMAN_PATH proc input_file output_file (callback_of k) subcommand
  = ([ShowError (py "Error") tool_missing_message], Return false).
Proof.
  intros H. unfold run_chdman. destruct CHDMAN_PATH as [tool|]; [|reflexivity].
  rewrite H. reflexivity.
Qed.

End Traces.

Lemma run_chdman_launches_alerts
        (k : callback_kind) (CHDMAN_PATH : option str) (proc : process)
        (input_file output_file subcommand : str) :
  let tr := fst (run_chdman CHDMAN_PATH proc input_file output_file
                            (callback_of k) subcommand) in
  launches tr
  = match CHDMAN_PATH with
    | Some tool =>
        if truthy CHDMAN_PATH
        then [[tool; subcommand; py "-i"; input_file; py "-o"; output_file]]
        else []
    | None => []
    end
  /\ error_alerts tr = (if truthy CHDMAN_PATH then 0 else 1).
Proof.
  cbv zeta. destruct (truthy CHDMAN_PATH) eqn:Ht.
  - destruct CHDMAN_PATH as [tool|]; [|discriminate].
    rewrite (run_chdman_trace k (Some tool) tool proc _ _ _ eq_refl Ht).
    destruct (run_chdman_try_trace k tool proc input_file output_file subcommand)
      as (final & -> & Hl & _ & _ & He).
    change (Popen ?a :: ?l) with ([Popen a] ++ l).
    rewrite launches_app, error_alerts_app.
    destruct (popen_raises proc); [auto|].
    destruct (stream_launches k (log_opens proc) (reads proc) []) as [Hsl Hse].
    rewrite launches_app, error_alerts_app, Hl, He, Hsl, Hse. auto.
  - rewrite (run_chdman_missing k CHDMAN_PATH proc _ _ _ Ht).
    destruct CHDMAN_PATH; auto.
Qed.

(** X6.  A call of [run_chdman] either shows the missing-tool alert and
    launches nothing, or shows no alert and launches exactly one process,
    whose command line is the tool, the sub-command, [-i], the input,
    [-o], the output. *)
Theorem run_chdman_one_launch
        (k : callback_kind) (CHDMAN_PATH : option str) (proc : process)
        (input_file output_file subcommand : str) :
  let tr := fst (run_chdman CHDMAN_PATH proc input_file output_file
                            (callback_of k) subcommand) in
  launches tr
  = match CHDMAN_PATH with
    | Some tool =>
        if truthy CHDMAN_PATH
        then [[tool; subcommand; py "-i"; input_file; py "-o"; output_file]]
        else []
    | None => []
    end
  /\ error_alerts tr = (if truthy CHDMAN_PATH then 0 else 1).
Proof. apply run_chdman_launches_alerts. Qed.


(** X8.  Every text sent to the tail label of the window has at most 80
    characters and holds no carriage return and no line feed. *)
Theorem run_chdman_tails
        (k : callback_kind) (CHDMAN_PATH : option str) (proc : process)
        (input_file output_file subcommand : str) :
  forallb tail_ok
          (tails (fst (run_chdman CHDMAN_PATH proc input_file output_file
                                  (callback_of k) subcommand))) = true.
Proof.
  destruct (truthy CHDMAN_PATH) eqn:Ht.
  - destruct CHDMAN_PATH as [tool|]; [|discriminate].
    rewrite (run_chdman_trace k (Some tool) tool proc _ _ _ eq_refl Ht).
    destruct (run_chdman_try_trace k tool proc input_file output_file subcommand)
      as (final & -> & _ & _ & Hf & _).
    change (Popen ?a :: ?l) with ([Popen a] ++ l). rewrite tails_app.
    destruct (popen_raises proc); [reflexivity|].
    rewrite tails_app, Hf, app_nil_r. simpl app. apply stream_tails.
  - rewrite (run_chdman_missing k CHDMAN_PATH proc _ _ _ Ht). reflexivity.
Qed.

(** ** [run_chdman]: the callback *)

Lemma progress_calls_app (a b : list event) :
  progress_calls (a ++ b) = progress_calls a ++ progress_calls b.
Proof. apply flat_map_app. Qed.

Lemma called_app (k : callback_kind) (a b : list event) :
  called k (a ++ b) = called k a ++ called k b.
Proof.
  destruct k; simpl; [reflexivity | apply callbacks_app | apply progress_calls_app].
Qed.

Lemma called_calls (k : callback_kind) (ps : list float) :
  called k match callback_of k with
           | Some cb => map cb ps
           | None => []
           end
  = match k with NoCallback => [] | _ => ps end.
Proof.
  destruct k; simpl; auto; induction ps as [|p ps IH]; simpl; auto;
    unfold callbacks, progress_calls in *; simpl; rewrite IH; reflexivity.
Qed.

Lemma report_percent_ok (ms : list Re.rmatch) : forallb percent_ok (report ms) = true.
Proof.
  apply forallb_forall. intros p Hp.
  apply in_report in Hp as (m & _ & _ & Hb). exact Hb.
Qed.

Lemma stream_called (k : callback_kind) (logf : bool) (rs : list read_result)
      (buffer : str) :
  forallb percent_ok (called k (fst (stream (callback_of k) logf buffer rs))) = true.
Proof.
  revert buffer; induction rs as [|r rs IH]; intros buffer;
    [destruct k; reflexivity|].
  destruct r as [[|c chunk] | e]; try (destruct k; reflexivity).
  rewrite stream_cons. cbn [fst].
  change (OutputTail ?t :: ?l) with ([OutputTail t] ++ l).
  rewrite !called_app, called_calls, !forallb_app, (IH (truncate (buffer ++ c :: chunk))).
  replace (called k [OutputTail _]) with (@nil float) by (destruct k; reflexivity).
  replace (called k (if logf then [LogWrite (c :: chunk)] else [])) with (@nil float)
    by (destruct k, logf; reflexivity).
  destruct k; simpl; rewrite ?report_percent_ok; reflexivity.
Qed.

Lemma run_chdman_called_ok
        (k : callback_kind) (CHDMAN_PATH : option str) (proc : process)
        (input_file output_file subcommand : str) :
  forallb percent_ok
          (called k (fst (run_chdman CHDMAN_PATH proc input_file output_file
                                     (callback_of k) subcommand))) = true.
Proof.
  destruct (truthy CHDMAN_PATH) eqn:Ht.
  - destruct CHDMAN_PATH as [tool|]; [|discriminate].
    rewrite (run_chdman_trace k (Some tool) tool proc _ _ _ eq_refl Ht).
    unfold run_chdman_try. destruct (popen_raises proc) as [e|];
      [destruct k; reflexivity|].
    pose proof (stream_called k (log_opens proc) (reads proc) []) as Hs.
    destruct (stream (callback_of k) (log_opens proc) [] (reads proc)) as [tr [u|e]];
      cbn [fst] in *.
    + destruct (wait_result proc) as [rc|e]; cbn [fst].
      * change (Popen ?a :: ?l) with ([Popen a] ++ l).
        rewrite !called_app, !forallb_app, Hs.
        destruct k; simpl; auto; destruct (rc =? 0)%Z; vm_compute; reflexivity.
      * change (Popen ?a :: ?l) with ([Popen a] ++ l).
        rewrite called_app, forallb_app, Hs. destruct k; reflexivity.
    + change (Popen ?a :: ?l) with ([Popen a] ++ l).
      rewrite called_app, forallb_app, Hs. destruct k; reflexivity.
  - rewrite (run_chdman_missing k CHDMAN_PATH proc _ _ _ Ht). destruct k; reflexivity.
Qed.

(** X9.  Every value [run_chdman] hands to its callback, the values
    parsed from the output and the final one alike, lies in
    [0.0, 100.0]. *)
Theorem run_chdman_calls_in_range
        (k : callback_kind) (CHDMAN_PATH : option str) (proc : process)
        (input_file output_file subcommand : str) :
  forallb percent_ok
          (called k (fst (run_chdman CHDMAN_PATH proc input_file output_file
                                     (callback_of k) subcommand))) = true.
Proof. apply run_chdman_called_ok. Qed.

Lemma stream_without_callback (logf : bool) (rs : list read_result) (buffer : str) :
  filter (fun e => negb (is_callback e)) (fst (stream (Some Callback) logf buffer rs))
  = fst (stream None logf buffer rs)
  /\ snd (stream (Some Callback) logf buffer rs) = snd (stream None logf buffer rs).
Proof.
  revert buffer; induction rs as [|r rs IH]; intros buffer; [auto|].
  destruct r as [[|c chunk] | e]; auto.
  rewrite (stream_cons Recording), (stream_cons NoCallback). cbn [fst snd callback_of].
  destruct (IH (truncate (buffer ++ c :: chunk))) as [IH1 IH2].
  split; [|exact IH2].
  change (OutputTail ?t :: ?l) with ([OutputTail t] ++ l).
  rewrite !filter_app, IH1.
  assert (Hc : forall ps, filter (fun e => negb (is_callback e)) (map Callback ps) = [])
    by (induction ps; simpl; auto).
  rewrite Hc. destruct logf; reflexivity.
Qed.

(** X10.  The callback only observes: [run_chdman] returns the same
    result with and without a callback, and its trace with a recording
    callback, the callback events left out, is its trace without one. *)
Theorem run_chdman_callback_observes
        (CHDMAN_PATH : option str) (proc : process)
        (input_file output_file subcommand : str) :
  filter (fun e => negb (is_callback e))
         (fst (run_chdman CHDMAN_PATH proc input_file output_file
                          (Some Callback) subcommand))
  = fst (run_chdman CHDMAN_PATH proc input_file output_file None subcommand)
  /\ snd (run_chdman CHDMAN_PATH proc input_file output_file (Some Callback) subcommand)
     = snd (run_chdman CHDMAN_PATH proc input_file output_file None subcommand).
Proof.
  unfold run_chdman. destruct CHDMAN_PATH as [tool|]; [|auto].
  destruct (truthy (Some tool)); [|auto].
  unfold run_chdman_try. destruct (popen_raises proc) as [e|]; [auto|].
  destruct (stream_without_callback (log_opens proc) (reads proc) []) as [H1 H2].
  destruct (stream (Some Callback) (log_opens proc) [] (reads proc)) as [tr r].
  destruct (stream None (log_opens proc) [] (reads proc)) as [tr' r'].
  cbn [fst snd] in *. subst tr' r'.
  destruct r as [u|e]; [|auto].
  destruct (wait_result proc) as [rc|e]; [|auto].
  cbn [fst snd]. split; [|reflexivity]. simpl. f_equal.
  rewrite filter_app, app_nil_r. destruct (rc =? 0)%Z; simpl; rewrite app_nil_r; reflexivity.
Qed.

(** X11.  [run_chdman] returns [True] only when the tool was found, the
    child was launched and read to the end without an exception, and its
    return code was 0. *)
Theorem run_chdman_true_only_on_success
        (CHDMAN_PATH : option str) (proc : process)
        (input_file output_file subcommand : str)
        (progress_cb : option (float -> event)) :
  snd (run_chdman CHDMAN_PATH proc input_file output_file progress_cb subcommand)
  = Return true ->
  truthy CHDMAN_PATH = true /\ exits_with proc 0.
Proof.
  unfold run_chdman. destruct CHDMAN_PATH as [tool|]; [|discriminate].
  destruct (truthy (Some tool)); [|discriminate].
  intros H. split; [reflexivity|]. revert H.
  unfold run_chdman_try, exits_with.
  destruct (popen_raises proc) as [e|]; [discriminate|].
  destruct (reads_to_end (reads proc)) eqn:Hr.
  - destruct (stream progress_cb (log_opens proc) [] (reads proc)) as [tr [u|e]];
      [|discriminate].
    destruct (wait_result proc) as [rc|e]; [|discriminate].
    cbn [snd]. intros [= H]. apply Z.eqb_eq in H. subst rc. auto.
  - destruct (stream_raises progress_cb (log_opens proc) (reads proc) [] Hr) as [e He].
    destruct (stream progress_cb (log_opens proc) [] (reads proc)) as [tr r].
    cbn [snd] in He. subst r. discriminate.
Qed.

Lemma run_chdman_true_only_on_success_witness :
  snd (run_chdman (Some (py "chdman")) proc_fifty (py "a.cue") (py "a.chd")
                  (Some SetProgress) (py "createcd")) = Return true
  /\ truthy (Some (py "chdman")) = true /\ exits_with proc_fifty 0.
Proof.
  assert (H : snd (run_chdman (Some (py "chdman")) proc_fifty (py "a.cue") (py "a.chd")
                              (Some SetProgress) (py "createcd")) = Return true)
    by reflexivity.
  split; [exact H|].
  exact (run_chdman_true_only_on_success (Some (py "chdman")) proc_fifty
           (py "a.cue") (py "a.chd") (py "createcd") (Some SetProgress) H).
Defined.

(** ** The scan of [finditer] *)


(** X12.  The matches of a scan come in increasing order and do not
    overlap; each lies within the text, and the text at its start is a
    token of one to three digits with an optional fraction, then blanks,
    then the percent sign, of which group 1 is the token. *)
Theorem finditer_matches (s : str) :
  StronglySorted (fun a b => Re.m_end a <= Re.m_start b) (Re.finditer s)
  /\ Forall (fun m =>
               Re.m_start m < Re.m_end m <= length s
               /\ spec_match (skipn (Re.m_start m) s) (Re.group1 m)
                             (Re.m_end m - Re.m_start m))
            (Re.finditer s).
Proof.
  destruct (finditer_from_found s 0 0) as [Hf Hs]. split; [exact Hs|].
  eapply Forall_impl; [|exact Hf]. intros m (_ & H2 & H3).
  rewrite Nat.sub_0_r in H3. auto.
Qed.

(** X13.  The scan is leftmost: wherever the text at an offset [i] is a
    token followed by blanks and a percent sign, a match of the scan
    covers the offset [i]; a token is left out only under an earlier
    match. *)
Theorem finditer_leftmost (s g : str) (n i : nat) :
  spec_match (skipn i s) g n ->
  exists m, In m (Re.finditer s) /\ Re.m_start m <= i < Re.m_end m.
Proof.
  intros H. apply match_at_complete in H.
  destruct (finditer_from_covers s g n 0 0 i (Nat.le_0_l i) H) as (m & Hin & Hc).
  exists m. split; [exact Hin | simpl in Hc; exact Hc].
Qed.

Lemma finditer_leftmost_witness :
  spec_match (skipn 1 (py "1050%")) (py "050") 4
  /\ exists m, In m (Re.finditer (py "1050%")) /\ Re.m_start m <= 1 < Re.m_end m.
Proof.
  assert (H : spec_match (skipn 1 (py "1050%")) (py "050") 4)
    by (apply match_at_sound; reflexivity).
  split; [exact H|].
  exact (finditer_leftmost (py "1050%") (py "050") 4 1 H).
Defined.

(** ** Streams that fit the buffer *)

Lemma truncation_points_short (chunks : list str) :
  forall off buffer,
    length buffer + length (concat chunks) <= 128 ->
    truncation_points off buffer chunks = [].
Proof.
  induction chunks as [|chunk rest IH]; intros off buffer H; [reflexivity|].
  simpl in *. rewrite length_app in H.
  destruct (Nat.ltb_spec 128 (length (buffer ++ chunk))) as [Hlt | Hle].
  - rewrite length_app in Hlt. lia.
  - apply IH. rewrite length_app. lia.
Qed.

(** X14.  An output of at most 128 characters is never cut: however it
    is split into non-empty chunks, the values handed to the callback
    are, as a set, those of a single scan of the whole output. *)
Theorem short_stream_invariance (chunks : list str) :
  Forall (fun chunk => chunk <> []) chunks ->
  length (concat chunks) <= 128 ->
  truncation_points 0 [] chunks = []
  /\ forall p,
      In p (reported [] chunks) <-> In p (report (Re.finditer (concat chunks))).
Proof.
  intros Hne Hlen.
  assert (Hnone : truncation_points 0 [] chunks = [])
    by (apply truncation_points_short; simpl; exact Hlen).
  split; [exact Hnone|]. intros p.
  pose proof (reported_gen chunks [] 0 Hne) as H. simpl app in H.
  rewrite <- H.
  - simpl. tauto.
  - intros c m Hc. rewrite Hnone in Hc. contradiction.
Qed.

Lemma short_stream_invariance_witness :
  (Forall (fun chunk => chunk <> []) [py "Compressing, 9"; py "9."; py "5"; py " %"]
   /\ length (concat [py "Compressing, 9"; py "9."; py "5"; py " %"]) <= 128)
  /\ forall p,
      In p (reported [] [py "Compressing, 9"; py "9."; py "5"; py " %"])
      <-> In p (report (Re.finditer
                          (concat [py "Compressing, 9"; py "9."; py "5"; py " %"]))).
Proof.
  assert (Hne : Forall (fun chunk : str => chunk <> [])
                       [py "Compressing, 9"; py "9."; py "5"; py " %"])
    by (repeat constructor; discriminate).
  assert (Hlen : length (concat [py "Compressing, 9"; py "9."; py "5"; py " %"]) <= 128)
    by (vm_compute; lia).
  split; [split; assumption|].
  exact (proj2 (short_stream_invariance
                  [py "Compressing, 9"; py "9."; py "5"; py " %"] Hne Hlen)).
Defined.

(** ** The progress display, continued *)

Section ClampFacts.

Local Open Scope float_scope.

(** X15.  Clamping twice is clamping once. *)
Theorem clamp_idempotent (p : float) : clamp (clamp p) = clamp p.
Proof.
  destruct (clamp_cases p) as [-> | [-> | (E & H0 & H100)]];
    try (vm_compute; reflexivity).
  rewrite E. exact E.
Qed.

(** A float that compares equal to 0.0 is a zero, and one that compares
    equal to 100.0 is 100.0. *)
Lemma equal_to_zero (p : float) :
  (0 <=? p) = true -> (0 <? p) = false -> exists s, Prim2SF p = S754_zero s.
Proof.
  rewrite leb_spec, ltb_spec, Prim2SF_0. unfold SFleb, SFltb.
  destruct (Prim2SF p) as [s | s | | s m e]; cbn [SFcompare]; intros H1 H2.
  - exists s; reflexivity.
  - destruct s; discriminate.
  - discriminate.
  - destruct s; discriminate.
Qed.

Lemma equal_to_hundred (p : float) :
  (p <=? 100) = true -> (p <? 100) = false -> p = 100.
Proof.
  rewrite leb_spec, ltb_spec. intros H1 H2. apply Prim2SF_inj. revert H1 H2.
  rewrite Prim2SF_100. unfold SFleb, SFltb.
  destruct (Prim2SF p) as [s | s | | s m e]; cbn [SFcompare].
  - discriminate.
  - destruct s; discriminate.
  - discriminate.
  - destruct s; [discriminate|].
    destruct (Z.compare_spec e (-46)) as [-> | He | He]; try discriminate.
    rewrite Pos.compare_cont_spec.
    destruct (Pos.compare_spec m 7036874417766400) as [-> | Hlt | Hgt];
      cbn [Pos.switch_Eq]; try discriminate.
    reflexivity.
Qed.

Lemma clamp_in_range (p : float) :
  percent_ok p = true ->
  clamp p = p \/ (clamp p = 0 /\ exists s, Prim2SF p = S754_zero s).
Proof.
  unfold percent_ok, PyFloat.between. intros H.
  apply andb_true_iff in H as [H0 H100].
  unfold clamp, PyFloat.max, PyFloat.min.
  destruct (p <? 100) eqn:Hlt.
  - destruct (0 <? p) eqn:Hpos; [left; reflexivity|].
    right. split; [reflexivity|]. apply equal_to_zero; assumption.
  - left. rewrite (equal_to_hundred p H100 Hlt). vm_compute. reflexivity.
Qed.

End ClampFacts.

Lemma in_range_unchanged (p : float) (u : ui) :
  percent_ok p = true ->
  (clamp p =? p)%float = true
  /\ PyFloat.round p = Some (progress_bar_value (set_progress p u)).
Proof.
  intros H. destruct (set_progress_applies p u) as (v & t & Hv & _ & _ & _ & ->).
  cbn [progress_bar_value].
  destruct (clamp_in_range p H) as [E | [E [s Hs]]].
  - rewrite E in *. split; [|exact Hv].
    unfold percent_ok, PyFloat.between in H. apply andb_true_iff in H as [H0 _].
    rewrite eqb_spec. rewrite leb_spec in H0. unfold SFeqb, SFleb in *.
    rewrite Prim2SF_0 in H0.
    destruct (Prim2SF p) as [s | s | | s m e]; cbn [SFcompare] in *; try discriminate.
    + reflexivity.
    + destruct s; [discriminate | reflexivity].
    + destruct s; [discriminate|].
      rewrite Z.compare_refl, Pos.compare_cont_refl. reflexivity.
  - rewrite E in *. split.
    + rewrite eqb_spec, Prim2SF_0, Hs. reflexivity.
    + unfold PyFloat.round, PyFloat.nearest in *. rewrite Prim2SF_0 in Hv.
      rewrite Hs. injection Hv as <-. destruct s; reflexivity.
Qed.

(** X16.  A value already in [0.0, 100.0] passes the clamp unchanged as a
    number, and the progress bar is set to [round] of the value itself. *)
Theorem set_progress_in_range (p : float) (u : ui) :
  percent_ok p = true ->
  (clamp p =? p)%float = true
  /\ PyFloat.round p = Some (progress_bar_value (set_progress p u)).
Proof. apply in_range_unchanged. Qed.

Lemma set_progress_in_range_witness :
  percent_ok 50.5%float = true
  /\ (clamp 50.5 =? 50.5)%float = true
  /\ PyFloat.round 50.5%float
     = Some (progress_bar_value (set_progress 50.5%float ui_init)).
Proof.
  assert (H : percent_ok 50.5%float = true) by (vm_compute; reflexivity).
  split; [exact H|].
  exact (set_progress_in_range 50.5%float ui_init H).
Defined.

Lemma display_frame (ps : list float) (u : ui) :
  status_var (display ps u) = status_var u
  /\ output_tail_var (display ps u) = output_tail_var u.
Proof.
  induction ps as [|p ps IH] using rev_ind; [auto|].
  rewrite display_snoc.
  destruct (set_progress_applies p (display ps u)) as (v & t & _ & _ & _ & _ & ->).
  exact IH.
Qed.

(** X17.  [set_progress] leaves the status line and the tail label alone,
    and the last call wins: after any sequence of calls the bar and the
    percent label show what the last call alone would show. *)
Theorem set_progress_last_wins (ps : list float) (p : float) (u u' : ui) :
  status_var (display (ps ++ [p]) u) = status_var u
  /\ output_tail_var (display (ps ++ [p]) u) = output_tail_var u
  /\ progress_bar_value (display (ps ++ [p]) u)
     = progress_bar_value (set_progress p u')
  /\ percent_var (display (ps ++ [p]) u) = percent_var (set_progress p u').
Proof.
  destruct (display_frame (ps ++ [p]) u) as [Hs Ht].
  split; [exact Hs|]. split; [exact Ht|].
  rewrite display_snoc.
  destruct (set_progress_applies p (display ps u)) as (v & t & Hv & _ & Hn & _ & ->).
  destruct (set_progress_applies p u') as (v' & t' & Hv' & _ & Hn' & _ & ->).
  cbn [progress_bar_value percent_var].
  rewrite Hv in Hv'. rewrite Hn in Hn'.
  injection Hv' as <-. injection Hn' as <-. auto.
Qed.

(** ** The batch, continued *)

Section BatchTraces.

Variables (os : os_lib) (CHDMAN_PATH : option str) (procs : nat -> process).
Variable system : str.

Lemma convert_files_trace (files : list str) :
  convert_files os CHDMAN_PATH procs files system
  = (flat_map (job_events os CHDMAN_PATH procs system (length files))
              (enumerate 1 files)
       ++ [SetStatus (py "Idle"); SetProgress 0; SetPercentVar [];
           ShowInfo (py "Batch Complete")
                    (summary_message system
                       (successes os CHDMAN_PATH procs system 1 files)
                       (length files - successes os CHDMAN_PATH procs system 1 files))],
     Return tt).
Proof. unfold convert_files. rewrite convert_loop_spec. reflexivity. Qed.

Lemma job_events_launches (tool : str) (total : nat) (files : list str) :
  CHDMAN_PATH = Some tool -> truthy CHDMAN_PATH = true ->
  forall start,
    launches (flat_map (job_events os CHDMAN_PATH procs system total)
                       (enumerate start files))
    = map (batch_argv os tool system) files
    /\ error_alerts (flat_map (job_events os CHDMAN_PATH procs system total)
                              (enumerate start files)) = 0.
Proof.
  intros E Ht. induction files as [|f files IH]; intros start; [auto|].
  rewrite enumerate_cons. cbn [flat_map map].
  destruct (IH (S start)) as [IHl IHe].
  rewrite launches_app, error_alerts_app, IHl, IHe.
  unfold job_events, job. cbn [fst snd].
  rewrite launches_app, error_alerts_app.
  destruct (run_chdman_launches_alerts Display CHDMAN_PATH (procs start) f
              (fst (splitext os f) ++ py ".chd") (choose_subcommand system f))
    as [Hl He].
  cbn [callback_of] in Hl, He. rewrite Hl, He, Ht. subst CHDMAN_PATH.
  split; reflexivity.
Qed.

Lemma job_events_missing (total : nat) (files : list str) :
  truthy CHDMAN_PATH = false ->
  forall start,
    flat_map (job_events os CHDMAN_PATH procs system total) (enumerate start files)
    = flat_map (fun job_ : nat * str =>
                  [SetStatus (converting_message os (fst job_) total (snd job_));
                   SetProgress 0;
                   ShowError (py "Error") tool_missing_message])
               (enumerate start files)
    /\ successes os CHDMAN_PATH procs system start files = 0.
Proof.
  intros Ht. induction files as [|f files IH]; intros start; [auto|].
  rewrite successes_cons, enumerate_cons. cbn [flat_map].
  destruct (IH (S start)) as [IHt IHs]. rewrite IHt, IHs.
  unfold job_events, job_succeeds, job. cbn [fst snd].
  pose proof (run_chdman_missing Display CHDMAN_PATH (procs start) f
                (fst (splitext os f) ++ py ".chd") (choose_subcommand system f) Ht)
    as Hm.
  cbn [callback_of] in Hm. rewrite Hm.
  split; reflexivity.
Qed.

End BatchTraces.

(** X18.  With the tool missing, a batch shows the missing-tool alert
    once for every file, launches nothing, and the text of its completion
    dialog is the system, [Converted: 0] and [Failed: ] followed by the
    number of files. *)
Theorem convert_files_tool_missing
        (os : os_lib) (CHDMAN_PATH : option str) (procs : nat -> process)
        (files : list str) (system : str) :
  truthy CHDMAN_PATH = false ->
  exists failed : str,
    decimal_value failed = Some (length files)
    /\ convert_files os CHDMAN_PATH procs files system
       = (flat_map (fun job_ : nat * str =>
                      [SetStatus (converting_message os (fst job_) (length files)
                                                     (snd job_));
                       SetProgress 0;
                       ShowError (py "Error") tool_missing_message])
                   (enumerate 1 files)
            ++ [SetStatus (py "Idle"); SetProgress 0; SetPercentVar [];
                ShowInfo (py "Batch Complete")
                         (system ++ [newline] ++ py "Converted: 0"
                                 ++ [newline] ++ py "Failed: " ++ failed)],
          Return tt).
Proof.
  intros Ht. exists (str_of_nat (length files)).
  split; [apply decimal_value_str_of_nat|].
  rewrite convert_files_trace.
  destruct (job_events_missing os CHDMAN_PATH procs system (length files) files Ht 1)
    as [-> ->].
  rewrite Nat.sub_0_r. reflexivity.
Qed.

Lemma convert_files_tool_missing_witness :
  truthy None = false
  /\ error_alerts (fst (convert_files os_example None (fun _ => proc_fifty)
                                     [py "a.cue"; py "b.iso"] (py "3DO"))) = 2
  /\ launches (fst (convert_files os_example None (fun _ => proc_fifty)
                                  [py "a.cue"; py "b.iso"] (py "3DO"))) = []
  /\ last (fst (convert_files os_example None (fun _ => proc_fifty)
                              [py "a.cue"; py "b.iso"] (py "3DO"))) ThreadStart
     = ShowInfo (py "Batch Complete")
                (py "3DO" ++ [newline] ++ py "Converted: 0"
                    ++ [newline] ++ py "Failed: 2").
Proof.
  split; [reflexivity|].
  destruct (convert_files_tool_missing os_example None (fun _ => proc_fifty)
              [py "a.cue"; py "b.iso"] (py "3DO") eq_refl) as (failed & Hf & E).
  repeat split; vm_compute; reflexivity.
Defined.

(** X19.  With the tool found, a batch launches exactly one process per
    file, in the order of the files, each on its file with the output
    path made of the input path without its extension and [.chd] and with
    the sub-command chosen for that file; no alert is shown. *)
Theorem convert_files_launches
        (os : os_lib) (tool : str) (procs : nat -> process)
        (files : list str) (system : str) :
  truthy (Some tool) = true ->
  launches (fst (convert_files os (Some tool) procs files system))
  = map (batch_argv os tool system) files
  /\ error_alerts (fst (convert_files os (Some tool) procs files system)) = 0.
Proof.
  intros Ht. rewrite convert_files_trace. cbn [fst].
  destruct (job_events_launches os (Some tool) procs system tool (length files) files
              eq_refl Ht 1) as [Hl He].
  rewrite launches_app, error_alerts_app, Hl, He.
  split; [apply app_nil_r | reflexivity].
Qed.

Lemma convert_files_launches_witness :
  truthy (Some (py "chdman")) = true
  /\ launches (fst (convert_files os_example (Some (py "chdman"))
                                  (fun idx => if idx =? 2 then proc_failing else proc_fifty)
                                  [py "a.cue"; py "b.iso"; py "c.gdi"]
                                  (py "Sony PlayStation 2 (PS2)")))
     = [ [py "chdman"; py "createcd"; py "-i"; py "a.cue"; py "-o"; py "a.chd"];
         [py "chdman"; py "createdvd"; py "-i"; py "b.iso"; py "-o"; py "b.chd"];
         [py "chdman"; py "createcd"; py "-i"; py "c.gdi"; py "-o"; py "c.chd"] ].
Proof.
  split; [reflexivity|].
  rewrite (proj1 (convert_files_launches os_example (py "chdman")
                    (fun idx => if idx =? 2 then proc_failing else proc_fifty)
                    [py "a.cue"; py "b.iso"; py "c.gdi"]
                    (py "Sony PlayStation 2 (PS2)") eq_refl)).
  reflexivity.
Defined.

(** ** The folder selection, the single conversion and the drop *)

(** X20.  When a folder was chosen and the tool was found, [select_batch]
    launches one process for every file the patterns of the profile find
    in the folder, extension after extension in the order of the profile,
    and nothing else. *)
Theorem select_batch_launches
        (os : os_lib) (tool : str) (procs : nat -> process) (system folder : str) :
  folder <> [] ->
  truthy (Some tool) = true ->
  launches (select_batch os (Some tool) procs system folder)
  = map (batch_argv os tool system)
        (flat_map (fun e => glob os (join os folder (py "*" ++ e)))
                  (snd (build_filetypes system))).
Proof.
  intros Hfolder Ht. unfold select_batch.
  destruct folder as [|c folder']; [contradiction|].
  destruct (flat_map (fun e => glob os (join os (c :: folder') (py "*" ++ e)))
                     (snd (build_filetypes system))) as [|f files]; [reflexivity|].
  change (ThreadStart :: ?l) with ([ThreadStart] ++ l). rewrite launches_app.
  rewrite convert_files_trace. cbn [fst].
  destruct (job_events_launches os (Some tool) procs system tool
              (length (f :: files)) (f :: files) eq_refl Ht 1) as [Hl _].
  rewrite launches_app, Hl. simpl. rewrite app_nil_r. reflexivity.
Qed.

Lemma select_batch_launches_witness :
  (py "/roms" <> [] /\ truthy (Some (py "chdman")) = true)
  /\ launches (select_batch os_two_images (Some (py "chdman")) (fun _ => proc_fifty)
                            (py "Sony PlayStation 2 (PS2)") (py "/roms"))
     = [ [py "chdman"; py "createcd"; py "-i"; py "/roms/a.cue"; py "-o"; py "/roms/a.chd"];
         [py "chdman"; py "createdvd"; py "-i"; py "/roms/b.iso"; py "-o"; py "/roms/b.chd"] ].
Proof.
  assert (H : py "/roms" <> []) by discriminate.
  split; [split; [exact H | reflexivity]|].
  rewrite (select_batch_launches os_two_images (py "chdman") (fun _ => proc_fifty)
             (py "Sony PlayStation 2 (PS2)") (py "/roms") H eq_refl).
  reflexivity.
Defined.

(** X21.  [select_single] does nothing when either dialog is cancelled;
    otherwise, with the tool found, it launches one process, on the
    chosen input and with the chosen output path. *)
Theorem select_single_launch
        (os : os_lib) (CHDMAN_PATH : option str) (proc : process)
        (system cue_file save_file : str) :
  if is_empty cue_file || is_empty save_file
  then select_single os CHDMAN_PATH proc system cue_file save_file = []
  else launches (select_single os CHDMAN_PATH proc system cue_file save_file)
       = match CHDMAN_PATH with
         | Some tool =>
             if truthy CHDMAN_PATH
             then [[tool; choose_subcommand system cue_file; py "-i"; cue_file;
                    py "-o"; save_file]]
             else []
         | None => []
         end.
Proof.
  unfold select_single.
  destruct cue_file as [|c cue]; [reflexivity|].
  destruct save_file as [|d save]; [reflexivity|]. cbn [is_empty orb].
  - destruct (run_chdman_launches_alerts Display CHDMAN_PATH proc (c :: cue) (d :: save)
                (choose_subcommand system (c :: cue))) as [Hl _].
    cbn [callback_of] in Hl.
    destruct (run_chdman CHDMAN_PATH proc (c :: cue) (d :: save) (Some SetProgress)
                         (choose_subcommand system (c :: cue))) as [tr [ok|e]];
      cbn [fst] in Hl.
    + change (ThreadStart :: ?a ++ ?b) with (([ThreadStart] ++ a) ++ b).
      rewrite !launches_app, Hl. unfold launches. cbn [flat_map app].
      apply app_nil_r.
    + change (ThreadStart :: ?a ++ ?b) with (([ThreadStart] ++ a) ++ b).
      rewrite !launches_app, Hl. reflexivity.
Qed.

(** X22.  A single conversion saved under the default name is the batch
    of that one file: after the start of the thread the two traces are
    the same up to their last event, the completion dialog, which carries
    the same counts under another title. *)
Theorem select_single_is_batch_of_one
        (os : os_lib) (CHDMAN_PATH : option str) (proc : process)
        (system cue_file : str) :
  cue_file <> [] ->
  let batch := fst (convert_files os CHDMAN_PATH (fun _ => proc) [cue_file] system) in
  exists message,
    last batch ThreadStart = ShowInfo (py "Batch Complete") message
    /\ select_single os CHDMAN_PATH proc system cue_file
                     (fst (splitext os cue_file) ++ py ".chd")
       = ThreadStart :: removelast batch
           ++ [ShowInfo (py "Conversion Complete") message].
Proof.
  intros Hne. cbv zeta. rewrite convert_files_trace. cbn [fst].
  unfold successes, enumerate. cbn [length seq combine flat_map filter].
  unfold job_succeeds, job_events, job. cbn [fst snd].
  unfold select_single. destruct cue_file as [|c cue]; [contradiction|].
  assert (Hsave : fst (splitext os (c :: cue)) ++ py ".chd" <> [])
    by (destruct (fst (splitext os (c :: cue))); discriminate).
  destruct (fst (splitext os (c :: cue)) ++ py ".chd") as [|d save] eqn:Esave;
    [contradiction|].
  destruct (run_chdman_returns (c :: cue) (d :: save)
              (choose_subcommand system (c :: cue)) (Some SetProgress)
              CHDMAN_PATH proc) as [ok Hok].
  destruct (run_chdman CHDMAN_PATH proc (c :: cue) (d :: save) (Some SetProgress)
                       (choose_subcommand system (c :: cue))) as [tr r].
  cbn [fst snd] in *. subst r. rewrite app_nil_r.
  change [SetStatus (py "Idle"); SetProgress 0; SetPercentVar [];
          ShowInfo (py "Batch Complete") ?m]
    with ([SetStatus (py "Idle"); SetProgress 0; SetPercentVar []]
            ++ [ShowInfo (py "Batch Complete") m]).
  rewrite !app_assoc, last_last, removelast_last.
  eexists. split; [reflexivity|].
  destruct ok; rewrite <- !app_assoc; reflexivity.
Qed.

Lemma select_single_is_batch_of_one_witness :
  py "a.cue" <> []
  /\ select_single os_example (Some (py "chdman")) proc_fifty (py "3DO") (py "a.cue")
                   (fst (splitext os_example (py "a.cue")) ++ py ".chd")
     = ThreadStart
         :: removelast (fst (convert_files os_example (Some (py "chdman"))
                                           (fun _ => proc_fifty) [py "a.cue"] (py "3DO")))
         ++ [ShowInfo (py "Conversion Complete") (summary_message (py "3DO") 1 0)].
Proof.
  assert (H : py "a.cue" <> []) by discriminate.
  split; [exact H|].
  destruct (select_single_is_batch_of_one os_example (Some (py "chdman")) proc_fifty
              (py "3DO") (py "a.cue") H) as (message & Hlast & ->).
  vm_compute in Hlast. injection Hlast as <-. reflexivity.
Defined.

Lemma drop_sort_filter (fs : fs_lib) (paths : list str) :
  drop_sort fs paths
  = (filter (drop_is_file fs) paths, filter (drop_is_folder fs) paths).
Proof.
  induction paths as [|p paths IH]; [reflexivity|].
  cbn [drop_sort]. rewrite IH. cbn [filter]. unfold drop_is_folder.
  change (isfile fs p && endswith_any (Py.lower p) DROP_EXTENSIONS)
    with (drop_is_file fs p).
  destruct (drop_is_file fs p); [reflexivity|]. cbn [negb andb].
  destruct (isdir fs p); reflexivity.
Qed.

Lemma drop_files_filter (os : os_lib) (fs : fs_lib) (paths : list str) :
  drop_files os fs paths
  = filter (drop_is_file fs) paths
      ++ flat_map (drop_folder os) (filter (drop_is_folder fs) paths).
Proof. unfold drop_files. rewrite drop_sort_filter. reflexivity. Qed.

(** X23.  With the tool found, a drop launches one process for each
    dropped file that exists and ends, in any letter case, in [.cue],
    [.gdi], [.iso] or [.cdi], in the order of the drop, and then one for
    each file the four patterns find in each dropped folder; the selected
    system decides the sub-command only, never which files are taken. *)
Theorem handle_drop_launches
        (os : os_lib) (fs : fs_lib) (tool : str) (procs : nat -> process)
        (system : str) (paths : list str) :
  truthy (Some tool) = true ->
  launches (handle_drop os fs (Some tool) procs system paths)
  = map (batch_argv os tool system)
        (filter (drop_is_file fs) paths
           ++ flat_map (drop_folder os) (filter (drop_is_folder fs) paths)).
Proof.
  intros Ht. unfold handle_drop. rewrite drop_files_filter.
  destruct (filter (drop_is_file fs) paths
              ++ flat_map (drop_folder os) (filter (drop_is_folder fs) paths))
    as [|f files]; [reflexivity|].
  change (ThreadStart :: ?l) with ([ThreadStart] ++ l). rewrite launches_app.
  rewrite convert_files_trace. cbn [fst].
  destruct (job_events_launches os (Some tool) procs system tool
              (length (f :: files)) (f :: files) eq_refl Ht 1) as [Hl _].
  rewrite launches_app, Hl. simpl. rewrite app_nil_r. reflexivity.
Qed.

Lemma handle_drop_launches_witness :
  truthy (Some (py "chdman")) = true
  /\ launches (handle_drop os_two_images fs_example (Some (py "chdman"))
                           (fun _ => proc_fifty) (py "Sony PlayStation (PS1)")
                           [py "/d/readme.txt"; py "/roms"; py "/d/Game.CDI"; py "/gone.iso"])
     = [ [py "chdman"; py "createcd"; py "-i"; py "/d/Game.CDI"; py "-o"; py "/d/Game.chd"];
         [py "chdman"; py "createcd"; py "-i"; py "/roms/a.cue"; py "-o"; py "/roms/a.chd"];
         [py "chdman"; py "createcd"; py "-i"; py "/roms/b.iso"; py "-o"; py "/roms/b.chd"] ].
Proof.
  split; [reflexivity|].
  rewrite (handle_drop_launches os_two_images fs_example (py "chdman")
             (fun _ => proc_fifty) (py "Sony PlayStation (PS1)")
             [py "/d/readme.txt"; py "/roms"; py "/d/Game.CDI"; py "/gone.iso"] eq_refl).
  reflexivity.
Defined.

(** X24.  A drop in which no path is an existing disc image or a folder
    does nothing at all: no thread, no launch, no dialog. *)
Theorem handle_drop_ignored
        (os : os_lib) (fs : fs_lib) (CHDMAN_PATH : option str)
        (procs : nat -> process) (system : str) (paths : list str) :
  forallb (fun p => negb (drop_is_file fs p) && negb (isdir fs p)) paths = true ->
  handle_drop os fs CHDMAN_PATH procs system paths = [].
Proof.
  intros H. unfold handle_drop. rewrite drop_files_filter.
  assert (Hf : filter (drop_is_file fs) paths = []
               /\ filter (drop_is_folder fs) paths = []).
  { induction paths as [|p paths IH]; [auto|].
    simpl in H. apply andb_true_iff in H as [Hp H].
    apply andb_true_iff in Hp as [Hp1 Hp2].
    destruct (IH H) as [IH1 IH2]. cbn [filter]. unfold drop_is_folder in *.
    apply negb_true_iff in Hp1, Hp2. rewrite Hp1, Hp2. cbn [negb andb]. auto. }
  destruct Hf as [-> ->]. reflexivity.
Qed.

Lemma handle_drop_ignored_witness :
  forallb (fun p => negb (drop_is_file fs_example p) && negb (isdir fs_example p))
          [py "/d/readme.txt"; py "/gone.iso"] = true
  /\ handle_drop os_two_images fs_example (Some (py "chdman")) (fun _ => proc_fifty)
                 (py "3DO") [py "/d/readme.txt"; py "/gone.iso"] = [].
Proof.
  split; [reflexivity|].
  apply (handle_drop_ignored os_two_images fs_example (Some (py "chdman"))
           (fun _ => proc_fifty) (py "3DO") [py "/d/readme.txt"; py "/gone.iso"]).
  reflexivity.
Defined.

(** ** Locating the tool *)

(** X25.  The tool is found exactly when the copy beside the program
    exists under a non-empty path or, failing that copy, the search path
    yields a non-empty path; the copy beside the program is preferred. *)
Theorem find_chdman_found (os : os_lib) (fs : fs_lib) (base_dir : str) :
  let local_path := join os base_dir (py "chdman.exe") in
  truthy (find_chdman os fs base_dir)
  = (isfile fs local_path && negb (is_empty local_path))
    || (negb (isfile fs local_path) && truthy (which fs (py "chdman")))
  /\ (if isfile fs local_path
      then find_chdman os fs base_dir = Some local_path
      else find_chdman os fs base_dir = None
           \/ find_chdman os fs base_dir = which fs (py "chdman")).
Proof.
  cbv zeta. unfold find_chdman.
  destruct (isfile fs (join os base_dir (py "chdman.exe"))).
  - split; [|reflexivity].
    destruct (join os base_dir (py "chdman.exe")); reflexivity.
  - cbn [negb andb orb].
    destruct (truthy (which fs (py "chdman"))) eqn:Hw; [|auto].
    rewrite Hw. auto.
Qed.

(** X26.  When the copy of the tool beside the program exists, every
    conversion launches that copy, whatever the search path holds, and
    never shows the missing-tool alert. *)
Theorem bundled_tool_is_launched
        (os : os_lib) (fs : fs_lib) (base_dir : str) (k : callback_kind)
        (proc : process) (input_file output_file subcommand : str) :
  isfile fs (join os base_dir (py "chdman.exe")) = true ->
  join os base_dir (py "chdman.exe") <> [] ->
  let tr := fst (run_chdman (find_chdman os fs base_dir) proc input_file output_file
                            (callback_of k) subcommand) in
  launches tr
  = [[join os base_dir (py "chdman.exe"); subcommand; py "-i"; input_file;
      py "-o"; output_file]]
  /\ error_alerts tr = 0.
Proof.
  intros Hfile Hne. cbv zeta.
  assert (E : find_chdman os fs base_dir = Some (join os base_dir (py "chdman.exe")))
    by (unfold find_chdman; rewrite Hfile; reflexivity).
  rewrite E.
  assert (Ht : truthy (Some (join os base_dir (py "chdman.exe"))) = true)
    by (destruct (join os base_dir (py "chdman.exe")); [contradiction | reflexivity]).
  destruct (run_chdman_launches_alerts k (Some (join os base_dir (py "chdman.exe")))
              proc input_file output_file subcommand) as [Hl He].
  rewrite Ht in Hl, He. auto.
Qed.

Lemma bundled_tool_is_launched_witness :
  (isfile fs_bundled (join os_example (py "/app") (py "chdman.exe")) = true
   /\ join os_example (py "/app") (py "chdman.exe") <> [])
  /\ launches (fst (run_chdman (find_chdman os_example fs_bundled (py "/app"))
                               proc_fifty (py "a.cue") (py "a.chd")
                               (callback_of Display) (py "createcd")))
     = [[py "/app/chdman.exe"; py "createcd"; py "-i"; py "a.cue"; py "-o"; py "a.chd"]].
Proof.
  assert (H1 : isfile fs_bundled (join os_example (py "/app") (py "chdman.exe")) = true)
    by reflexivity.
  assert (H2 : join os_example (py "/app") (py "chdman.exe") <> []) by discriminate.
  split; [split; assumption|].
  exact (proj1 (bundled_tool_is_launched os_example fs_bundled (py "/app") Display
                  proc_fifty (py "a.cue") (py "a.chd") (py "createcd") H1 H2)).
Defined.

(** ** The batch and the display *)

(** X27.  In a batch every value [set_progress] is called with, the
    resets and the values coming from the tool alike, lies in
    [0.0, 100.0]: the clamp of [set_progress] never has to change one. *)
Theorem convert_files_progress_in_range
        (os : os_lib) (CHDMAN_PATH : option str) (procs : nat -> process)
        (files : list str) (system : str) :
  forallb (fun p => percent_ok p && (clamp p =? p)%float)
          (progress_calls (fst (convert_files os CHDMAN_PATH procs files system)))
  = true.
Proof.
  assert (Hok : forallb percent_ok
                        (progress_calls
                           (fst (convert_files os CHDMAN_PATH procs files system)))
                = true).
  { rewrite convert_files_trace. cbn [fst].
    rewrite progress_calls_app, forallb_app. apply andb_true_iff. split.
    - generalize 1. generalize (length files) at 1.
      induction files as [|f files IH]; intros total start; [reflexivity|].
      rewrite enumerate_cons. cbn [flat_map].
      rewrite progress_calls_app, forallb_app, IH, andb_true_r.
      unfold job_events, job. cbn [fst snd].
      rewrite progress_calls_app, forallb_app.
      pose proof (run_chdman_called_ok Display CHDMAN_PATH (procs start) f
                    (fst (splitext os f) ++ py ".chd") (choose_subcommand system f))
        as H.
      cbn [called callback_of] in H. rewrite H. vm_compute. reflexivity.
    - vm_compute. reflexivity. }
  rewrite forallb_forall in *. intros p Hp. specialize (Hok p Hp). rewrite Hok.
  destruct (in_range_unchanged p ui_init Hok) as [-> _]. reflexivity.
Qed.
